(** * femto-fsrs: the FSRS 4.5 scheduling formulas of [index.ts]

    The development has three layers.

    - [Js]: the fragment of JavaScript the scheduler uses: numbers, the
      value [undefined] that an out-of-range array read yields, the
      arithmetic operators, [Math.pow], [Math.exp], [Math.max],
      [Math.min], [===], truthiness and [||].
    - The scheduler itself, one definition per function of [createDeck],
      written over [Js.value] with the operators of [js_scope]; then the
      draft kept in the same file and the loop of [test.ts].
    - The theorems.

    Numbers are modelled in exact arithmetic: a finite number is a real
    number, and the non-finite numbers [NaN], [Infinity] and [-Infinity]
    behave as in IEEE 754.  The rounding of binary64, overflow, underflow
    and the sign of zero are not modelled (a zero is treated as [+0]);
    [Math.pow] and [Math.exp], whose results ECMAScript leaves to the
    implementation, are the real functions.

    The theorems are stated with that in mind.  An equality is claimed
    only where the code computes the value without rounding (an array
    read, a [NaN], a product with zero, a clamp to a bound); a computed
    number is given within a tolerance; an order is strict only where the
    two sides differ by far more than a rounding error; and the numbers
    range over the reference weights and over bounded stabilities and
    rates wherever a huge or tiny one would overflow or be absorbed in
    binary64.  The lemmas in between are facts of the exact model. *)

From Stdlib Require Import Reals Lra Lia ZArith List Bool Factorial Sorted.
From Stdlib Require String.
Import ListNotations.
Import String.StringSyntax.

Local Open Scope R_scope.

(* ================================================================== *)
(** * JavaScript numbers *)
(* ================================================================== *)

Module Js.

(** The values that flow through the scheduler: [undefined] (a read past
    the end of an array, or an absent field) and the numbers. *)
Inductive value : Type :=
| Undefined
| NaN
| PInf
| NInf
| Fin (r : R).

Arguments Fin r%_R.

(** [ToNumber]: [undefined] becomes [NaN], a number is itself. *)
Definition ToNumber (v : value) : value :=
  match v with
  | Undefined => NaN
  | _ => v
  end.

(** An infinity times (or divided by) a finite number [x] of the sign of
    [x]; [NaN] for zero. *)
Definition signed_inf (x : R) : value :=
  match total_order_T 0 x with
  | inleft (left _) => PInf
  | inleft (right _) => NaN
  | inright _ => NInf
  end.

Definition neg (a : value) : value :=
  match ToNumber a with
  | Undefined | NaN => NaN
  | PInf => NInf
  | NInf => PInf
  | Fin x => Fin (- x)
  end.

Definition add (a b : value) : value :=
  match ToNumber a, ToNumber b with
  | Undefined, _ | NaN, _ | _, Undefined | _, NaN => NaN
  | PInf, NInf | NInf, PInf => NaN
  | PInf, _ | _, PInf => PInf
  | NInf, _ | _, NInf => NInf
  | Fin x, Fin y => Fin (x + y)
  end.

Definition sub (a b : value) : value := add a (neg b).

Definition mul (a b : value) : value :=
  match ToNumber a, ToNumber b with
  | Undefined, _ | NaN, _ | _, Undefined | _, NaN => NaN
  | PInf, PInf | NInf, NInf => PInf
  | PInf, NInf | NInf, PInf => NInf
  | PInf, Fin x | Fin x, PInf => signed_inf x
  | NInf, Fin x | Fin x, NInf => signed_inf (- x)
  | Fin x, Fin y => Fin (x * y)
  end.

Definition div (a b : value) : value :=
  match ToNumber a, ToNumber b with
  | Undefined, _ | NaN, _ | _, Undefined | _, NaN => NaN
  | PInf, PInf | PInf, NInf | NInf, PInf | NInf, NInf => NaN
  | PInf, Fin y => if Rle_dec 0 y then PInf else NInf
  | NInf, Fin y => if Rle_dec 0 y then NInf else PInf
  | Fin _, PInf | Fin _, NInf => Fin 0
  | Fin x, Fin y => if Req_dec_T y 0 then signed_inf x else Fin (x / y)
  end.

(** [Math.exp]. *)
Definition Math_exp (a : value) : value :=
  match ToNumber a with
  | Undefined | NaN => NaN
  | PInf => PInf
  | NInf => Fin 0
  | Fin x => Fin (exp x)
  end.

(** Whether a real is an integer, and an odd one. *)
Definition is_integer (y : R) : bool :=
  if Req_dec_T y (IZR (Int_part y)) then true else false.

Definition is_odd_integer (y : R) : bool :=
  is_integer y && Z.odd (Int_part y).

(** [Math.pow], case by case as Number::exponentiate lists them. *)
Definition Math_pow (base exponent : value) : value :=
  match ToNumber exponent with
  | Undefined | NaN => NaN
  | PInf =>
      match ToNumber base with
      | Undefined | NaN => NaN
      | PInf | NInf => PInf
      | Fin b =>
          if Rlt_dec 1 (Rabs b) then PInf
          else if Req_dec_T (Rabs b) 1 then NaN
          else Fin 0
      end
  | NInf =>
      match ToNumber base with
      | Undefined | NaN => NaN
      | PInf | NInf => Fin 0
      | Fin b =>
          if Rlt_dec 1 (Rabs b) then Fin 0
          else if Req_dec_T (Rabs b) 1 then NaN
          else PInf
      end
  | Fin y =>
      if Req_dec_T y 0 then Fin 1
      else
        match ToNumber base with
        | Undefined | NaN => NaN
        | PInf => if Rlt_dec 0 y then PInf else Fin 0
        | NInf =>
            if Rlt_dec 0 y
            then (if is_odd_integer y then NInf else PInf)
            else Fin 0
        | Fin b =>
            match total_order_T 0 b with
            | inleft (left _) => Fin (Rpower b y)
            | inleft (right _) => if Rlt_dec 0 y then Fin 0 else PInf
            | inright _ =>
                if is_integer y then Fin (powerRZ b (Int_part y)) else NaN
            end
        end
  end.

(** [Math.max] and [Math.min] of two arguments. *)
Definition Math_max (a b : value) : value :=
  match ToNumber a, ToNumber b with
  | Undefined, _ | NaN, _ | _, Undefined | _, NaN => NaN
  | PInf, _ | _, PInf => PInf
  | NInf, x | x, NInf => x
  | Fin x, Fin y => Fin (Rmax x y)
  end.

Definition Math_min (a b : value) : value :=
  match ToNumber a, ToNumber b with
  | Undefined, _ | NaN, _ | _, Undefined | _, NaN => NaN
  | NInf, _ | _, NInf => NInf
  | PInf, x | x, PInf => x
  | Fin x, Fin y => Fin (Rmin x y)
  end.

(** [a === b]. *)
Definition strict_eq (a b : value) : bool :=
  match a, b with
  | Undefined, Undefined => true
  | PInf, PInf => true
  | NInf, NInf => true
  | Fin x, Fin y => if Req_dec_T x y then true else false
  | _, _ => false
  end.

(** Truthiness of a value: [undefined], [NaN] and zero are falsy. *)
Definition truthy (a : value) : bool :=
  match a with
  | Undefined | NaN => false
  | PInf | NInf => true
  | Fin x => if Req_dec_T x 0 then false else true
  end.

(** [a || b] on values. *)
Definition or_else (a b : value) : value := if truthy a then a else b.

(** The falsy values a caller can leave in the place of an array. *)
Inductive falsy : Type :=
| falsy_undefined
| falsy_null
| falsy_false
| falsy_zero
| falsy_NaN
| falsy_empty_string.

(** What the field [w] holds: an array, or one of the falsy values (an
    absent field reads as [undefined]). *)
Inductive array_or_falsy : Type :=
| Array (l : list value)
| Falsy (f : falsy).

(** [a || b] where [a] is an array or a falsy value: an array is an
    object, and every object is truthy, the empty array too. *)
Definition or_else_array (a : array_or_falsy) (b : list value)
  : list value :=
  match a with
  | Array l => l
  | Falsy _ => b
  end.

(** [w[i]]: the element at [i] when [i] is an integer within the array,
    [undefined] otherwise. *)
Definition index (w : list value) (i : value) : value :=
  match i with
  | Fin x =>
      if is_integer x && (if Rle_dec 0 x then true else false)
      then nth (Z.to_nat (Int_part x)) w Undefined
      else Undefined
  | _ => Undefined
  end.

(** [Math.abs]. *)
Definition Math_abs (a : value) : value :=
  match ToNumber a with
  | Undefined | NaN => NaN
  | PInf | NInf => PInf
  | Fin x => Fin (Rabs x)
  end.

(** [a < b] and [a > b] on numbers: false as soon as an operand is
    [NaN]. *)
Definition lt (a b : value) : bool :=
  match ToNumber a, ToNumber b with
  | Undefined, _ | NaN, _ | _, Undefined | _, NaN => false
  | _, NInf => false
  | NInf, _ => true
  | PInf, _ => false
  | Fin _, PInf => true
  | Fin x, Fin y => if Rlt_dec x y then true else false
  end.

Definition gt (a b : value) : bool := lt b a.

End Js.

Import Js.

Declare Scope js_scope.
Delimit Scope js_scope with js.
Bind Scope js_scope with value.

Notation "x + y" := (add x y) : js_scope.
Notation "x - y" := (sub x y) : js_scope.
Notation "x * y" := (mul x y) : js_scope.
Notation "x / y" := (div x y) : js_scope.
Notation "- x" := (neg x) : js_scope.
Notation "x === y" := (strict_eq x y) (at level 70, no associativity) : js_scope.
Notation "x > y" := (gt x y) : js_scope.
Notation "w .[ i ]" := (index w i) (at level 1, left associativity,
  format "w .[ i ]") : js_scope.

(* ================================================================== *)
(** * The scheduler *)
(* ================================================================== *)

(** [Card]: difficulty, stability and interval. *)
Module Card.
Record t : Type := mk { D : value; S : value; I : value }.
End Card.

(** [enum Grade]: a numeric enum, its members are numbers. *)
Module Grade.
Definition AGAIN : value := Fin 1.
Definition HARD : value := Fin 2.
Definition GOOD : value := Fin 3.
Definition EASY : value := Fin 4.
End Grade.

(** [DeckParams].  The rate is a number, or [undefined] when the caller
    leaves it out; [w] is an array, or a falsy value in its place
    ([undefined] when it is left out). *)
Module DeckParams.
Record t : Type := mk {
  requestedRetentionRate : value;
  w : array_or_falsy
}.
End DeckParams.

(** Constants for FSRS-4.5. *)
Definition DECAY : value := Fin (-0.5).
Definition FACTOR : value := (Fin 19 / Fin 81)%js.

Definition DEFAULT_W : list value :=
  [Fin 0.4; Fin 0.6; Fin 2.4; Fin 5.8; Fin 4.93; Fin 0.94; Fin 0.86;
   Fin 0.01; Fin 1.49; Fin 0.14; Fin 0.94; Fin 2.18; Fin 0.05;
   Fin 0.34; Fin 1.26; Fin 0.29; Fin 2.61].

Definition DEFAULT_PARAMS : DeckParams.t :=
  {| DeckParams.requestedRetentionRate := Fin 0.9;
     DeckParams.w := Array DEFAULT_W |}.

(** The functions that [createDeck] defines close over the two constants
    it binds, [w] and [requestedRetentionRate]. *)
Section Deck.

Variable w : list value.
Variable requestedRetentionRate : value.

Local Open Scope js_scope.

Definition retrievability (t S : value) : value :=
  Math_pow (Fin 1 + FACTOR * (t / S)) DECAY.

Definition nextInterval (R S : value) : value :=
  (S / FACTOR) * (Math_pow R (Fin 1 / DECAY) - Fin 1).

Definition initialStability (G : value) : value :=
  w.[G - Fin 1].

Definition initialDifficulty (G : value) : value :=
  let val := w.[Fin 4] + (G - Fin 3) * w.[Fin 5] in
  Math_max (Fin 1) (Math_min (Fin 10) val).

Definition nextDifficulty (D G : value) : value :=
  let val :=
    w.[Fin 7] * initialDifficulty (Fin 3)
    + (Fin 1 - w.[Fin 7]) * (D - w.[Fin 6] * (G - Fin 3)) in
  Math_max (Fin 1) (Math_min (Fin 10) val).

Definition nextStabilityAfterRecall (d s r g : value) : value :=
  let hard_penalty := if Grade.HARD === g then w.[Fin 15] else Fin 1 in
  let easy_bound := if Grade.EASY === g then w.[Fin 16] else Fin 1 in
  s *
  (Fin 1 +
     Math_exp w.[Fin 8] *
     (Fin 11 - d) *
     Math_pow s (- w.[Fin 9]) *
     (Math_exp ((Fin 1 - r) * w.[Fin 10]) - Fin 1) *
     hard_penalty *
     easy_bound).

Definition nextStabilityAfterForgetting (d s r : value) : value :=
  w.[Fin 11] *
  Math_pow d (- w.[Fin 12]) *
  (Math_pow (s + Fin 1) w.[Fin 13] - Fin 1) *
  Math_exp ((Fin 1 - r) * w.[Fin 14]).

Definition newCard (grade : value) : Card.t :=
  let D := initialDifficulty grade in
  let S := initialStability grade in
  let I := nextInterval requestedRetentionRate S in
  {| Card.D := D; Card.S := S; Card.I := I |}.

(** [gradeCard] is declared on [DifficultyAndStability]; callers hand
    back the cards they were given, which carry an interval too. *)
Definition gradeCard (card : Card.t) (daysSinceReview grade : value)
  : Card.t :=
  let currentRetrievability := retrievability daysSinceReview (Card.S card) in
  let D := nextDifficulty (Card.D card) grade in
  let S :=
    if grade === Grade.AGAIN
    then nextStabilityAfterForgetting D (Card.S card) currentRetrievability
    else nextStabilityAfterRecall D (Card.S card) currentRetrievability grade in
  let I := nextInterval requestedRetentionRate S in
  {| Card.D := D; Card.S := S; Card.I := I |}.

End Deck.

(** What [createDeck] returns: the two methods of the object. *)
Module Deck.
Record t : Type := mk {
  newCard : value -> Card.t;
  gradeCard : Card.t -> value -> value -> Card.t
}.
End Deck.

(** The two constants [createDeck] binds.  An omitted argument ([None])
    takes the default parameter value [DEFAULT_PARAMS]. *)
Definition createDeck_params (params : option DeckParams.t) : DeckParams.t :=
  match params with
  | Some p => p
  | None => DEFAULT_PARAMS
  end.

Definition createDeck_w (params : option DeckParams.t) : list value :=
  or_else_array (DeckParams.w (createDeck_params params)) DEFAULT_W.

Definition createDeck_requestedRetentionRate (params : option DeckParams.t)
  : value :=
  or_else (DeckParams.requestedRetentionRate (createDeck_params params))
          (DeckParams.requestedRetentionRate DEFAULT_PARAMS).

Definition createDeck (params : option DeckParams.t) : Deck.t :=
  let w := createDeck_w params in
  let requestedRetentionRate := createDeck_requestedRetentionRate params in
  {| Deck.newCard := newCard w requestedRetentionRate;
     Deck.gradeCard := gradeCard w requestedRetentionRate |}.

(** What a call is handed in the place of an object: nothing (the
    argument is left out, which reads as [undefined]), [null], or an
    object. *)
Inductive argument (A : Type) : Type :=
| arg_undefined
| arg_null
| arg_object (a : A).

Arguments arg_undefined {A}.
Arguments arg_null {A}.
Arguments arg_object {A} a.

(** How a call ends: it returns a value, or the engine raises a
    [TypeError] because a property is read on [undefined] or [null]. *)
Inductive result (A : Type) : Type :=
| Returns (a : A)
| TypeError.

Arguments Returns {A} a.
Arguments TypeError {A}.

(** A call of [createDeck]: the default parameter value stands in for an
    argument that is left out, not for [null], on which [params.w]
    raises. *)
Definition createDeck_call (params : argument DeckParams.t)
  : result Deck.t :=
  match params with
  | arg_undefined => Returns (createDeck None)
  | arg_null => TypeError
  | arg_object p => Returns (createDeck (Some p))
  end.

(** A call of a deck's [newCard]: the grade is only computed with. *)
Definition newCard_call (deck : Deck.t) (grade : value) : result Card.t :=
  Returns (Deck.newCard deck grade).

(** A call of a deck's [gradeCard]: its first statement reads [card.S]. *)
Definition gradeCard_call (deck : Deck.t) (card : argument Card.t)
  (daysSinceReview grade : value) : result Card.t :=
  match card with
  | arg_object c => Returns (Deck.gradeCard deck c daysSinceReview grade)
  | arg_undefined | arg_null => TypeError
  end.

(* ================================================================== *)
(** * The draft of the scheduler *)
(* ================================================================== *)

(** How a statement completes: normally, or by throwing an [Error] with a
    message. *)
Inductive completion : Type :=
| Normal
| Throw (message : String.string).

(** Statements in sequence: the first throw ends the run. *)
Definition and_then (c1 c2 : completion) : completion :=
  match c1 with
  | Normal => c2
  | Throw m => Throw m
  end.

(** The earlier version of the module kept in [index.ts]: the same
    formulas over one module-level weight array, a comparison helper that
    throws, the checks run when the module loads, and a deck whose
    [gradeCard] takes no elapsed days. *)
Module Draft.

Definition w : list value :=
  [Fin 0.4; Fin 0.6; Fin 2.4; Fin 5.8; Fin 4.93; Fin 0.94; Fin 0.86;
   Fin 0.01; Fin 1.49; Fin 0.14; Fin 0.94; Fin 2.18; Fin 0.05;
   Fin 0.34; Fin 1.26; Fin 0.29; Fin 2.61].

(** [compare]: throws when the two numbers are further apart than
    [epsilon] (the table it prints first is left out). *)
Definition compare (a b epsilon : value) (message : String.string)
  : completion :=
  if (Math_abs (a - b) > epsilon)%js then Throw message else Normal.

Local Open Scope string_scope.

(** The checks of the draft, in the order the module runs them. *)
Definition checks : completion :=
  and_then
    (compare (retrievability (Fin 1) (Fin 1)) (Fin 0.9) (Fin 0.0)
       "R must equal 0.9 when t = S")
  (and_then
    (compare (nextInterval (Fin 0.9) (Fin 2)) (Fin 2) (Fin 0.01)
       "Expected I(r, S) = S when R = 0.9")
  (and_then
    (compare (initialStability w Grade.AGAIN) (w.[Fin 0])%js (Fin 0.0)
       "AGAIN should have stability of w[0]")
  (and_then
    (compare (initialStability w Grade.EASY) (w.[Fin 3])%js (Fin 0.0)
       "AGAIN should have stability of w[3]")
  (and_then
    (compare (initialDifficulty w Grade.GOOD) (w.[Fin 4])%js (Fin 0.0)
       "GOOD should have initial difficulty of w[4]")
  (and_then
    (compare (nextDifficulty w (Fin 10) Grade.EASY) (Fin 9.1) (Fin 0.1)
       "Not certain this is correct...")
    (compare (nextDifficulty w (Fin 5) Grade.HARD) (Fin 5.85) (Fin 0.1)
       "Not certain this is correct...")))))).

Local Close Scope string_scope.

Record Deck : Type := mkDeck {
  newCard : value -> Card.t;
  gradeCard : value -> Card.t -> Card.t
}.

(** The draft's deck binds the retention rate only.  Its [gradeCard]
    picks the stability function by the grade and calls it with the
    requested retention rate in the place of the retrievability; the
    forgetting function takes three arguments and ignores the fourth. *)
Definition createDeck (requestedRetentionRate : value) : Deck :=
  {| newCard := fun grade =>
       let D := initialDifficulty w grade in
       let S := initialStability w grade in
       let I := nextInterval requestedRetentionRate S in
       {| Card.D := D; Card.S := S; Card.I := I |};
     gradeCard := fun grade card =>
       let fn :=
         if (grade === Grade.AGAIN)%js
         then fun d s r (_ : value) => nextStabilityAfterForgetting w d s r
         else nextStabilityAfterRecall w in
       let D := nextDifficulty w (Card.D card) grade in
       let S := fn D (Card.S card) requestedRetentionRate grade in
       let I := nextInterval requestedRetentionRate S in
       {| Card.D := D; Card.S := S; Card.I := I |} |}.

End Draft.

(* ================================================================== *)
(** * The review sequence of [test.ts] *)
(* ================================================================== *)

(** One turn of the [forEach] callback: past the first rating the card is
    graded with its own interval as the elapsed days; then a row is
    pushed.  A row is kept as the card it tabulates. *)
Definition forEach_step (deck : Deck.t) (state : Card.t * list Card.t)
  (item : value * nat) : Card.t * list Card.t :=
  let '(card, results) := state in
  let '(rating, index) := item in
  let card :=
    if (0 <? index)%nat
    then let daysSinceReview := Card.I card in
         Deck.gradeCard deck card daysSinceReview rating
    else card in
  (card, results ++ [card]).

(** The rows [test.ts] builds from a list of ratings: the card starts as
    [newCard(ratings[0])]. *)
Definition tabulate (deck : Deck.t) (ratings : list value) : list Card.t :=
  let card := Deck.newCard deck (ratings.[Fin 0])%js in
  snd (fold_left (forEach_step deck)
         (combine ratings (seq 0 (length ratings)))
         (card, [])).

(** The ratings of [test.ts]. *)
Definition test_ratings : list value :=
  [Grade.GOOD; Grade.GOOD; Grade.GOOD; Grade.GOOD; Grade.AGAIN;
   Grade.GOOD; Grade.GOOD].

(* ================================================================== *)
(** * Notions used by the statements *)
(* ================================================================== *)

(** The four members of [Grade], and the three that mean a recall. *)
Definition is_grade (g : value) : Prop :=
  g = Grade.AGAIN \/ g = Grade.HARD \/ g = Grade.GOOD \/ g = Grade.EASY.

Definition is_recall_grade (g : value) : Prop :=
  g = Grade.HARD \/ g = Grade.GOOD \/ g = Grade.EASY.

(** The stability update as the specification words it: a grading event
    with grade [AGAIN] takes the forgetting transition, one with grade
    [HARD], [GOOD] or [EASY] takes the recall transition; both consume the
    updated difficulty [D'], the old stability [S] and the retrievability
    [r]. *)
Inductive transition (w : list value) (D' S r : value)
  : value -> value -> Prop :=
| forgetting :
    transition w D' S r Grade.AGAIN (nextStabilityAfterForgetting w D' S r)
| recall (g : value) :
    is_recall_grade g ->
    transition w D' S r g (nextStabilityAfterRecall w D' S r g).

(** The composition the specification prescribes for [gradeCard]. *)
Definition graded (w : list value) (requestedRetentionRate : value)
  (card : Card.t) (daysSinceReview grade : value) (card' : Card.t) : Prop :=
  exists r D' S' : value,
    r = retrievability daysSinceReview (Card.S card) /\
    D' = nextDifficulty w (Card.D card) grade /\
    transition w D' (Card.S card) r grade S' /\
    card' = {| Card.D := D'; Card.S := S';
               Card.I := nextInterval requestedRetentionRate S' |}.

(** A card within the ranges its type comments give: difficulty in
    [1, 10], positive stability, non-negative interval. *)
Definition in_domain (c : Card.t) : Prop :=
  exists d s i : R,
    c = Card.mk (Fin d) (Fin s) (Fin i) /\
    1 <= d <= 10 /\ 0 < s /\ 0 <= i.

(** The cards a sequence of gradings on schedule runs through. *)
Fixpoint on_schedule (deck : Deck.t) (card : Card.t) (ratings : list value)
  : list Card.t :=
  match ratings with
  | [] => []
  | g :: gs =>
      let card' := Deck.gradeCard deck card (Card.I card) g in
      card' :: on_schedule deck card' gs
  end.

(** The second card has a stability at least as large. *)
Definition stability_le (c1 c2 : Card.t) : Prop :=
  exists s1 s2 : R, Card.S c1 = Fin s1 /\ Card.S c2 = Fin s2 /\ s1 <= s2.

(** A card as a deck of retention [rate] hands it out: finite difficulty,
    positive stability, and the interval of that stability. *)
Definition scheduled (rate : R) (c : Card.t) : Prop :=
  exists d s : R,
    c = Card.mk (Fin d) (Fin s) (nextInterval (Fin rate) (Fin s)) /\ 0 < s.

(** The stability a review on schedule at retention 0.9 leads to on the
    reference weights, as real formulas: after [GOOD], and after
    [AGAIN], for the new difficulty [d'] and the old stability [s]. *)
Definition recall_GOOD_R (d' s : R) : R :=
  s * (1 + exp 1.49 * Rpower s (-0.14) * (exp ((1 - 0.9) * 0.94) - 1)
           * ((11 - d') * (1 * 1))).

Definition forget_R (d' s : R) : R :=
  2.18 * Rpower d' (-0.05) * (Rpower (s + 1) 0.34 - 1)
  * exp ((1 - 0.9) * 1.26).

(** A weight vector as the data model has it: seventeen finite numbers. *)
Definition is_finite (v : value) : Prop := exists x : R, v = Fin x.

Definition finite_weights (w : list value) : Prop :=
  length w = 17%nat /\ Forall is_finite w.

(** The real number held at position [k] of a weight vector. *)
Definition weight (w : list value) (k : nat) : R :=
  match nth k w Undefined with
  | Fin x => x
  | _ => 0
  end.

(** [v] is a finite number within [eps] of [x]. *)
Definition approx (v : value) (x eps : R) : Prop :=
  exists y : R, v = Fin y /\ Rabs (y - x) < eps.

(** Two finite numbers that differ by no more than a billionth of the
    second one. *)
Definition close (u v : value) : Prop :=
  exists x y : R,
    u = Fin x /\ v = Fin y /\ Rabs (x - y) <= 0.000000001 * Rabs y.

(** A row of the table of [test.ts] as it is printed: the difficulty [d]
    to six decimals, and the stability and the interval both [s] to three
    decimals. *)
Definition row_near (c : Card.t) (row : R * R) : Prop :=
  approx (Card.D c) (fst row) 0.000001 /\
  approx (Card.S c) (snd row) 0.001 /\
  approx (Card.I c) (snd row) 0.001.

(** The Taylor polynomial of the exponential of degree [n], its rest,
    and the polynomial of degree 7 in Horner form: they bound the
    exponentials of the reference scenario. *)
Fixpoint exp_taylor (n : nat) (x : R) : R :=
  match n with
  | O => 1
  | S m => exp_taylor m x + x ^ (S m) / INR (fact (S m))
  end.

Definition exp_rest (n : nat) (x : R) : R := exp x - exp_taylor n x.

Definition exp_poly7 (x : R) : R :=
  1 + x * (1 + x / 2 * (1 + x / 3 * (1 + x / 4 * (1 + x / 5 *
    (1 + x / 6 * (1 + x / 7)))))).

(** The card [newCard(GOOD)] returns on the default deck. *)
Definition reference_card : Card.t :=
  Deck.newCard (createDeck None) Grade.GOOD.

(* ================================================================== *)
(** * Evaluation on finite numbers *)
(* ================================================================== *)

Section FiniteArithmetic.

Local Open Scope js_scope.

Lemma add_Fin (x y : R) : Fin x + Fin y = Fin (x + y).
Proof. reflexivity. Qed.

Lemma sub_Fin (x y : R) : Fin x - Fin y = Fin (x - y).
Proof. reflexivity. Qed.

Lemma mul_Fin (x y : R) : Fin x * Fin y = Fin (x * y).
Proof. reflexivity. Qed.

Lemma neg_Fin (x : R) : - Fin x = Fin (- x).
Proof. reflexivity. Qed.

Lemma div_Fin (x y : R) : y <> 0%R -> Fin x / Fin y = Fin (x / y).
Proof.
  intros Hy. unfold div; simpl.
  destruct (Req_dec_T y 0) as [E | _]; [contradiction | reflexivity].
Qed.

Lemma Math_exp_Fin (x : R) : Math_exp (Fin x) = Fin (exp x).
Proof. reflexivity. Qed.

Lemma Math_max_Fin (x y : R) : Math_max (Fin x) (Fin y) = Fin (Rmax x y).
Proof. reflexivity. Qed.

Lemma Math_min_Fin (x y : R) : Math_min (Fin x) (Fin y) = Fin (Rmin x y).
Proof. reflexivity. Qed.

(** On a positive base [Math.pow] is the real power function. *)
Lemma Math_pow_Fin (b y : R) :
  (0 < b)%R -> Math_pow (Fin b) (Fin y) = Fin (Rpower b y).
Proof.
  intros Hb. unfold Math_pow; simpl.
  destruct (Req_dec_T y 0) as [-> | Hy].
  - now rewrite Rpower_O.
  - destruct (total_order_T 0 b) as [[_ | E] | Hlt]; [reflexivity | lra | lra].
Qed.

Lemma strict_eq_Fin_true (x y : R) : x = y -> (Fin x === Fin y) = true.
Proof.
  intros ->. simpl. destruct (Req_dec_T y y); [reflexivity | contradiction].
Qed.

Lemma strict_eq_Fin_false (x y : R) : x <> y -> (Fin x === Fin y) = false.
Proof.
  intros H. simpl. destruct (Req_dec_T x y); [contradiction | reflexivity].
Qed.

Lemma Int_part_IZR (z : Z) : Int_part (IZR z) = z.
Proof.
  symmetry. apply Int_part_spec. split; lra.
Qed.

Lemma is_integer_IZR (z : Z) : is_integer (IZR z) = true.
Proof.
  unfold is_integer. rewrite Int_part_IZR.
  destruct (Req_dec_T (IZR z) (IZR z)); [reflexivity | contradiction].
Qed.

(** A read at a non-negative integer index is the list lookup. *)
Lemma index_IZR (w : list value) (z : Z) :
  (0 <= z)%Z -> w.[Fin (IZR z)] = nth (Z.to_nat z) w Undefined.
Proof.
  intros Hz. unfold index. rewrite is_integer_IZR, Int_part_IZR.
  destruct (Rle_dec 0 (IZR z)) as [_ | Hn]; [reflexivity |].
  exfalso. apply Hn. now apply IZR_le.
Qed.

(** A read at a negative index yields [undefined]. *)
Lemma index_negative (w : list value) (x : R) :
  (x < 0)%R -> w.[Fin x] = Undefined.
Proof.
  intros Hx. unfold index.
  destruct (Rle_dec 0 x) as [Hle | _]; [lra |].
  now rewrite andb_false_r.
Qed.

Lemma FACTOR_Fin : FACTOR = Fin (19 / 81).
Proof. unfold FACTOR. apply div_Fin. lra. Qed.

End FiniteArithmetic.

Create Rewrite HintDb js.

#[local] Hint Rewrite add_Fin sub_Fin mul_Fin neg_Fin Math_exp_Fin
  Math_max_Fin Math_min_Fin FACTOR_Fin : js.
#[local] Hint Rewrite div_Fin Math_pow_Fin using lra : js.
#[local] Hint Rewrite index_IZR using lia : js.

(* ================================================================== *)
(** * The composition of [gradeCard] *)
(* ================================================================== *)

Lemma recall_grade_not_AGAIN (g : value) :
  is_recall_grade g -> (g === Grade.AGAIN)%js = false.
Proof.
  intros [-> | [-> | ->]]; apply strict_eq_Fin_false; lra.
Qed.

Lemma is_grade_cases (g : value) :
  is_grade g <-> g = Grade.AGAIN \/ is_recall_grade g.
Proof. unfold is_grade, is_recall_grade. tauto. Qed.

(** The two transitions are disjoint: a grade determines the new
    stability. *)
Lemma transition_functional (w : list value) (D' S r g S1 S2 : value) :
  transition w D' S r g S1 -> transition w D' S r g S2 -> S1 = S2.
Proof.
  intros H1 H2.
  inversion H1 as [E1 | g1 R1 E1]; inversion H2 as [E2 | g2 R2 E2];
    subst; try reflexivity.
  - apply recall_grade_not_AGAIN in R2. unfold Grade.AGAIN in R2.
    rewrite strict_eq_Fin_true in R2 by reflexivity. discriminate R2.
  - apply recall_grade_not_AGAIN in R1. unfold Grade.AGAIN in R1.
    rewrite strict_eq_Fin_true in R1 by reflexivity. discriminate R1.
Qed.

(** The branch the code takes is the transition of the grade. *)
Lemma gradeCard_transition (w : list value) (R : value) (card : Card.t)
  (t g : value) :
  is_grade g ->
  transition w (nextDifficulty w (Card.D card) g) (Card.S card)
    (retrievability t (Card.S card)) g
    (Card.S (gradeCard w R card t g)).
Proof.
  intros Hg. apply is_grade_cases in Hg. unfold gradeCard; cbn [Card.S].
  destruct Hg as [-> | Hr].
  - change (Grade.AGAIN === Grade.AGAIN)%js with (Fin 1 === Fin 1)%js.
    rewrite strict_eq_Fin_true by reflexivity. constructor.
  - rewrite (recall_grade_not_AGAIN g Hr). now constructor.
Qed.

(** C1. For every card, elapsed days [t] and grade [g] among the four,
    the card [gradeCard] returns is the one, and the only one, the
    specification's composition describes: [r] is the retrievability at
    [t] and the old stability, [D'] is [nextDifficulty] of the old
    difficulty, [S'] comes from the forgetting transition for [AGAIN] and
    from the recall transition for [HARD], [GOOD] and [EASY], each fed
    [D'] and the frozen [r], and [I'] is [nextInterval] of the bound
    retention rate and [S']. *)
Theorem gradeCard_composition (w : list value) (R : value) (card : Card.t)
  (t g : value) :
  is_grade g ->
  forall card' : Card.t,
    graded w R card t g card' <-> card' = gradeCard w R card t g.
Proof.
  intros Hg card'. split.
  - intros (r & D' & S' & -> & -> & HS & ->).
    pose proof (gradeCard_transition w R card t g Hg) as Hc.
    rewrite (transition_functional _ _ _ _ _ _ _ HS Hc).
    reflexivity.
  - intros ->.
    exists (retrievability t (Card.S card)),
           (nextDifficulty w (Card.D card) g),
           (Card.S (gradeCard w R card t g)).
    repeat split.
    now apply gradeCard_transition.
Qed.

Lemma gradeCard_composition_witness :
  is_grade Grade.EASY /\
  forall card' : Card.t,
    graded DEFAULT_W (Fin 0.9) (Card.mk (Fin 5) (Fin 2) (Fin 2)) (Fin 1)
      Grade.EASY card'
    <-> card' = gradeCard DEFAULT_W (Fin 0.9) (Card.mk (Fin 5) (Fin 2) (Fin 2))
                  (Fin 1) Grade.EASY.
Proof.
  assert (H : is_grade Grade.EASY) by (unfold is_grade; tauto).
  split; [exact H |].
  exact (gradeCard_composition DEFAULT_W (Fin 0.9)
           (Card.mk (Fin 5) (Fin 2) (Fin 2)) (Fin 1) Grade.EASY H).
Defined.

(* ================================================================== *)
(** * The interval field is never read *)
(* ================================================================== *)

(** C9. Two cards that agree on [D] and [S] are graded alike, whatever
    their [I] fields hold: [gradeCard] never reads the interval. *)
Theorem gradeCard_ignores_interval (w : list value) (R : value)
  (c1 c2 : Card.t) (t g : value) :
  Card.D c1 = Card.D c2 ->
  Card.S c1 = Card.S c2 ->
  gradeCard w R c1 t g = gradeCard w R c2 t g.
Proof.
  intros HD HS. unfold gradeCard. now rewrite HD, HS.
Qed.

Lemma gradeCard_ignores_interval_witness :
  gradeCard DEFAULT_W (Fin 0.9) (Card.mk (Fin 5) (Fin 2) (Fin 2)) (Fin 1)
    Grade.GOOD
  = gradeCard DEFAULT_W (Fin 0.9) (Card.mk (Fin 5) (Fin 2) NaN) (Fin 1)
      Grade.GOOD.
Proof.
  apply gradeCard_ignores_interval; reflexivity.
Defined.

(* ================================================================== *)
(** * Retrievability and interval *)
(* ================================================================== *)

Lemma retrievability_Fin (t s : R) :
  s <> 0 -> 0 < 1 + 19 / 81 * (t / s) ->
  retrievability (Fin t) (Fin s)
  = Fin (Rpower (1 + 19 / 81 * (t / s)) (-0.5)).
Proof.
  intros Hs Hb. unfold retrievability, DECAY.
  now autorewrite with js.
Qed.

Lemma nextInterval_Fin (r s : R) :
  0 < r ->
  nextInterval (Fin r) (Fin s)
  = Fin (s / (19 / 81) * (Rpower r (-2) - 1)).
Proof.
  intros Hr. unfold nextInterval, DECAY.
  autorewrite with js.
  replace (1 / -0.5) with (-2) by lra.
  reflexivity.
Qed.

Lemma Rpower_neg2 (r : R) : 0 < r -> Rpower r (-2) = / (r * r).
Proof.
  intros Hr. replace (-2) with (Ropp (INR 2)) by (simpl; lra).
  rewrite Rpower_Ropp. f_equal. rewrite Rpower_pow by assumption. simpl. ring.
Qed.

(** In exact arithmetic the two formulas are inverse to each other: past
    the interval for retention [r] the retrievability is [r], the
    interval for retention 0.9 is the stability, and the retrievability
    after as many days as the stability is 0.9. *)
Lemma retrievability_nextInterval (r s : R) :
  0 < s -> 0 < r ->
  retrievability (nextInterval (Fin r) (Fin s)) (Fin s) = Fin r.
Proof.
  intros Hs Hr. rewrite nextInterval_Fin by assumption.
  assert (HP : 0 < Rpower r (-2)) by (unfold Rpower; apply exp_pos).
  assert (E : 1 + 19 / 81 * (s / (19 / 81) * (Rpower r (-2) - 1) / s)
              = Rpower r (-2)) by (field; lra).
  rewrite retrievability_Fin; [| lra | rewrite E; exact HP].
  rewrite E, Rpower_mult.
  replace (-2 * -0.5) with 1 by lra.
  now rewrite Rpower_1.
Qed.

Lemma nextInterval_reference (s : R) :
  nextInterval (Fin 0.9) (Fin s) = Fin s.
Proof.
  rewrite nextInterval_Fin by lra.
  rewrite Rpower_neg2 by lra. f_equal.
  replace 0.9 with (9 / 10) by lra. field.
Qed.

Lemma retrievability_at_stability (s : R) :
  0 < s -> retrievability (Fin s) (Fin s) = Fin 0.9.
Proof.
  intros Hs.
  assert (E : 1 + 19 / 81 * (s / s) = Rpower 0.9 (-2)).
  { rewrite Rpower_neg2 by lra. replace 0.9 with (9 / 10) by lra.
    field. lra. }
  rewrite retrievability_Fin; [| lra | rewrite E; unfold Rpower; apply exp_pos].
  rewrite E, Rpower_mult.
  replace (-2 * -0.5) with 1 by lra.
  now rewrite Rpower_1 by lra.
Qed.

(* ================================================================== *)
(** * The formulas on a finite weight vector *)
(* ================================================================== *)

Lemma finite_weights_nth (w : list value) (k : nat) :
  finite_weights w -> (k < 17)%nat -> nth k w Undefined = Fin (weight w k).
Proof.
  intros [Hlen Hall] Hk.
  assert (Hin : In (nth k w Undefined) w) by (apply nth_In; lia).
  rewrite Forall_forall in Hall.
  destruct (Hall _ Hin) as [x Hx].
  unfold weight. now rewrite Hx.
Qed.

Lemma index_weight (w : list value) (z : Z) :
  finite_weights w -> (0 <= z < 17)%Z ->
  (w.[Fin (IZR z)])%js = Fin (weight w (Z.to_nat z)).
Proof.
  intros Hw Hz. rewrite index_IZR by lia.
  apply finite_weights_nth; [assumption | lia].
Qed.

Lemma finite_weights_DEFAULT_W : finite_weights DEFAULT_W.
Proof.
  split; [reflexivity |].
  unfold DEFAULT_W. repeat constructor; eexists; reflexivity.
Qed.

(** Rewrites every read of a weight into the real number it holds. *)
Ltac weights Hw :=
  repeat rewrite (index_weight _ _ Hw) by lia;
  cbn [Z.to_nat Pos.to_nat Pos.iter_op Nat.add].

Lemma clamp_range (x : R) : 1 <= Rmax 1 (Rmin 10 x) <= 10.
Proof.
  split.
  - apply Rmax_l.
  - apply Rmax_lub; [lra | apply Rmin_l].
Qed.

Lemma initialDifficulty_Fin (w : list value) (g : R) :
  finite_weights w ->
  initialDifficulty w (Fin g)
  = Fin (Rmax 1 (Rmin 10 (weight w 4 + (g - 3) * weight w 5))).
Proof.
  intros Hw. unfold initialDifficulty. weights Hw.
  now autorewrite with js.
Qed.

Lemma nextDifficulty_Fin (w : list value) (d g : R) :
  finite_weights w ->
  nextDifficulty w (Fin d) (Fin g)
  = Fin (Rmax 1 (Rmin 10
      (weight w 7 * Rmax 1 (Rmin 10 (weight w 4 + (3 - 3) * weight w 5))
       + (1 - weight w 7) * (d - weight w 6 * (g - 3))))).
Proof.
  intros Hw. unfold nextDifficulty.
  rewrite initialDifficulty_Fin by assumption. weights Hw.
  now autorewrite with js.
Qed.

(** The two grade-dependent factors of the recall formula. *)
Lemma hard_penalty_Fin (w : list value) (g : value) :
  finite_weights w ->
  exists h : R,
    (if (Grade.HARD === g)%js then (w.[Fin 15])%js else Fin 1) = Fin h /\
    (g = Grade.HARD -> h = weight w 15) /\
    (g = Grade.GOOD \/ g = Grade.EASY -> h = 1).
Proof.
  intros Hw. weights Hw.
  destruct (Grade.HARD === g)%js eqn:E.
  - exists (weight w 15). repeat split.
    intros [-> | ->]; unfold Grade.HARD, Grade.GOOD, Grade.EASY in E;
      rewrite strict_eq_Fin_false in E by lra; discriminate E.
  - exists 1. repeat split.
    intros ->. unfold Grade.HARD in E.
    rewrite strict_eq_Fin_true in E by reflexivity. discriminate E.
Qed.

Lemma easy_bound_Fin (w : list value) (g : value) :
  finite_weights w ->
  exists e : R,
    (if (Grade.EASY === g)%js then (w.[Fin 16])%js else Fin 1) = Fin e /\
    (g = Grade.EASY -> e = weight w 16) /\
    (g = Grade.HARD \/ g = Grade.GOOD -> e = 1).
Proof.
  intros Hw. weights Hw.
  destruct (Grade.EASY === g)%js eqn:E.
  - exists (weight w 16). repeat split.
    intros [-> | ->]; unfold Grade.HARD, Grade.GOOD, Grade.EASY in E;
      rewrite strict_eq_Fin_false in E by lra; discriminate E.
  - exists 1. repeat split.
    intros ->. unfold Grade.EASY in E.
    rewrite strict_eq_Fin_true in E by reflexivity. discriminate E.
Qed.

(** The recall formula on finite arguments, with the two grade factors
    [h] and [e] as the grade selects them. *)
Lemma nextStabilityAfterRecall_Fin (w : list value) (d s r : R) (g : value) :
  finite_weights w -> 0 < s ->
  exists h e : R,
    nextStabilityAfterRecall w (Fin d) (Fin s) (Fin r) g
    = Fin (s * (1 + exp (weight w 8) * (11 - d) * Rpower s (- weight w 9)
                    * (exp ((1 - r) * weight w 10) - 1) * h * e)) /\
    (g = Grade.HARD -> h = weight w 15 /\ e = 1) /\
    (g = Grade.GOOD -> h = 1 /\ e = 1) /\
    (g = Grade.EASY -> h = 1 /\ e = weight w 16).
Proof.
  intros Hw Hs.
  destruct (hard_penalty_Fin w g Hw) as (h & Eh & Hh1 & Hh2).
  destruct (easy_bound_Fin w g Hw) as (e & Ee & He1 & He2).
  exists h, e. split.
  - unfold nextStabilityAfterRecall. rewrite Eh, Ee. weights Hw.
    now autorewrite with js.
  - repeat split; intros; auto.
Qed.

Lemma nextStabilityAfterForgetting_Fin (w : list value) (d s r : R) :
  finite_weights w -> 0 < d -> 0 < s + 1 ->
  nextStabilityAfterForgetting w (Fin d) (Fin s) (Fin r)
  = Fin (weight w 11 * Rpower d (- weight w 12)
         * (Rpower (s + 1) (weight w 13) - 1)
         * exp ((1 - r) * weight w 14)).
Proof.
  intros Hw Hd Hs. unfold nextStabilityAfterForgetting. weights Hw.
  now autorewrite with js.
Qed.

(* ================================================================== *)
(** * Difficulty stays in range *)
(* ================================================================== *)


(* ================================================================== *)
(** * Stability after a review, reference weights *)
(* ================================================================== *)

Lemma Rpower_pos (x y : R) : 0 < Rpower x y.
Proof. unfold Rpower. apply exp_pos. Qed.

Lemma exp_ge_1 (x : R) : 0 <= x -> 1 <= exp x.
Proof.
  intros [Hx | <-].
  - left. rewrite <- exp_0. now apply exp_increasing.
  - rewrite exp_0. lra.
Qed.

(** The growth term of the recall formula is never negative. *)
Lemma recall_growth_nonneg (a d p r k h e : R) :
  0 < a -> d <= 10 -> 0 < p -> r <= 1 -> 0 <= k -> 0 <= h -> 0 <= e ->
  0 <= a * (11 - d) * p * (exp ((1 - r) * k) - 1) * h * e.
Proof.
  intros Ha Hd Hp Hr Hk Hh He.
  assert (H1 : 0 <= exp ((1 - r) * k) - 1).
  { assert (1 <= exp ((1 - r) * k)); [| lra].
    apply exp_ge_1. apply Rmult_le_pos; lra. }
  repeat apply Rmult_le_pos; lra.
Qed.

(** On the reference weights the recall transition returns a finite
    stability that is at least the old one. *)
Lemma recall_reference (d s r : R) (g : value) :
  1 <= d <= 10 -> 0 < s -> 0 < r <= 1 -> is_recall_grade g ->
  exists s' : R,
    nextStabilityAfterRecall DEFAULT_W (Fin d) (Fin s) (Fin r) g = Fin s' /\
    s <= s'.
Proof.
  intros Hd Hs Hr Hg.
  destruct (nextStabilityAfterRecall_Fin DEFAULT_W d s r g
              finite_weights_DEFAULT_W Hs) as (h & e & E & HH & HG & HE).
  eexists. split; [exact E |].
  assert (Hhe : 0 <= h /\ 0 <= e).
  { destruct Hg as [Hg | [Hg | Hg]].
    - destruct (HH Hg) as [-> ->]. unfold weight; simpl. lra.
    - destruct (HG Hg) as [-> ->]. lra.
    - destruct (HE Hg) as [-> ->]. unfold weight; simpl. lra. }
  assert (Hgrow :
    0 <= exp (weight DEFAULT_W 8) * (11 - d)
         * Rpower s (- weight DEFAULT_W 9)
         * (exp ((1 - r) * weight DEFAULT_W 10) - 1) * h * e).
  { apply recall_growth_nonneg; try lra.
    - apply exp_pos.
    - apply Rpower_pos.
    - unfold weight; simpl; lra. }
  nra.
Qed.

(** On the reference weights the forgetting transition returns, in exact
    arithmetic, a strictly positive stability. *)
Lemma forgetting_reference (d s r : R) :
  1 <= d <= 10 -> 0 < s ->
  exists s' : R,
    nextStabilityAfterForgetting DEFAULT_W (Fin d) (Fin s) (Fin r) = Fin s' /\
    0 < s'.
Proof.
  intros Hd Hs.
  eexists. split.
  - apply nextStabilityAfterForgetting_Fin;
      [apply finite_weights_DEFAULT_W | lra | lra].
  - assert (H1 : 0 < Rpower (s + 1) (weight DEFAULT_W 13) - 1).
    { assert (Rpower (s + 1) 0 < Rpower (s + 1) (weight DEFAULT_W 13)).
      { apply Rpower_lt; [lra | unfold weight; simpl; lra]. }
      rewrite Rpower_O in H by lra. lra. }
    assert (H0 : 0 < weight DEFAULT_W 11) by (unfold weight; simpl; lra).
    apply Rmult_lt_0_compat; [| apply exp_pos].
    apply Rmult_lt_0_compat; [| exact H1].
    apply Rmult_lt_0_compat; [exact H0 | apply Rpower_pos].
Qed.

(** C7. With the reference weight vector, for every difficulty [d] in
    [1, 10], stability [s > 0], retrievability [r] in (0, 1] and grade
    [HARD], [GOOD] or [EASY], the recall transition returns a stability
    that is at least [s]: the growth term, scaled by [w[15]] for [HARD]
    and by [w[16]] for [EASY], is never negative. *)
Theorem recall_never_decreases (d s r : R) (g : value) :
  1 <= d <= 10 -> 0 < s -> 0 < r <= 1 -> is_recall_grade g ->
  exists s' : R,
    nextStabilityAfterRecall DEFAULT_W (Fin d) (Fin s) (Fin r) g = Fin s' /\
    s <= s'.
Proof.
  exact (recall_reference d s r g).
Qed.

Lemma recall_never_decreases_witness :
  exists s' : R,
    nextStabilityAfterRecall DEFAULT_W (Fin 5) (Fin 2) (Fin 0.9) Grade.HARD
    = Fin s' /\
    2 <= s'.
Proof.
  apply recall_never_decreases; try lra.
  unfold is_recall_grade. tauto.
Defined.

(* ================================================================== *)
(** * Grading without delay *)
(* ================================================================== *)

Lemma Rpower_base_1 (y : R) : Rpower 1 y = 1.
Proof. unfold Rpower. now rewrite ln_1, Rmult_0_r, exp_0. Qed.

(** No time elapsed: the retrievability is 1. *)
Lemma retrievability_zero (s : R) :
  0 < s -> retrievability (Fin 0) (Fin s) = Fin 1.
Proof.
  intros Hs.
  assert (E : 1 + 19 / 81 * (0 / s) = 1) by (field; lra).
  rewrite retrievability_Fin; [| lra | lra].
  now rewrite E, Rpower_base_1.
Qed.

Lemma recall_grade_Fin (g : value) :
  is_recall_grade g -> exists x : R, g = Fin x.
Proof.
  intros [-> | [-> | ->]]; eexists; reflexivity.
Qed.



(** The difficulty, however, moves: on the reference weights a card of
    difficulty 5 graded [GOOD] without delay comes back with a difficulty
    of about 4.9993, a little below 5. *)
Lemma immediate_recall_moves_difficulty :
  exists d' : R,
    Card.D (gradeCard DEFAULT_W (Fin 0.9) (Card.mk (Fin 5) (Fin 2) (Fin 2))
              (Fin 0) Grade.GOOD)
    = Fin d' /\
    4.999 < d' < 5.
Proof.
  exists 4.9993. split; [| lra].
  unfold gradeCard; cbn [Card.D]. unfold Grade.GOOD.
  rewrite nextDifficulty_Fin by exact finite_weights_DEFAULT_W.
  f_equal. unfold weight; simpl.
  replace (4.93 + (3 - 3) * 0.94) with 4.93 by lra.
  rewrite (Rmin_right 10 4.93) by lra.
  rewrite (Rmax_right 1 4.93) by lra.
  replace (0.01 * 4.93 + (1 - 0.01) * (5 - 0.86 * (3 - 3))) with 4.9993 by lra.
  rewrite Rmin_right by lra. rewrite Rmax_right by lra. reflexivity.
Qed.

(* ================================================================== *)
(** * Falsy configuration fields *)
(* ================================================================== *)

Lemma truthy_Fin (x : R) : x <> 0 -> truthy (Fin x) = true.
Proof.
  intros Hx. simpl. destruct (Req_dec_T x 0); [contradiction | reflexivity].
Qed.

Lemma truthy_zero : truthy (Fin 0) = false.
Proof.
  simpl. destruct (Req_dec_T 0 0) as [_ | H]; [reflexivity | now destruct H].
Qed.

Lemma or_else_falsy (a b : value) : truthy a = false -> or_else a b = b.
Proof. intros H. unfold or_else. now rewrite H. Qed.

Lemma or_else_truthy (a b : value) : truthy a = true -> or_else a b = a.
Proof. intros H. unfold or_else. now rewrite H. Qed.

(** The deck of [createDeck()]: the reference weights and retention 0.9. *)
Lemma createDeck_None :
  createDeck None
  = {| Deck.newCard := newCard DEFAULT_W (Fin 0.9);
       Deck.gradeCard := gradeCard DEFAULT_W (Fin 0.9) |}.
Proof.
  unfold createDeck, createDeck_w, createDeck_requestedRetentionRate.
  cbn [createDeck_params DEFAULT_PARAMS DeckParams.w
       DeckParams.requestedRetentionRate or_else_array].
  rewrite or_else_truthy by (apply truthy_Fin; lra).
  reflexivity.
Qed.

(** A deck given a truthy rate and an array binds exactly those. *)
Lemma createDeck_Some (rate : value) (l : list value) :
  truthy rate = true ->
  createDeck (Some (DeckParams.mk rate (Array l)))
  = {| Deck.newCard := newCard l rate; Deck.gradeCard := gradeCard l rate |}.
Proof.
  intros H.
  unfold createDeck, createDeck_w, createDeck_requestedRetentionRate.
  cbn [createDeck_params DeckParams.w DeckParams.requestedRetentionRate
       or_else_array].
  now rewrite or_else_truthy.
Qed.

Lemma two_is_index : 3 - 1 = IZR 2.
Proof. lra. Qed.

Lemma initialStability_GOOD (w : list value) :
  initialStability w Grade.GOOD = nth 2 w Undefined.
Proof.
  unfold initialStability, Grade.GOOD.
  rewrite sub_Fin, two_is_index, index_IZR by lia. reflexivity.
Qed.

(** C4, as stated, fails: with [requestedRetentionRate: 0] and [w: []]
    the deck keeps the empty array, so [newCard(GOOD)] has the stability
    [undefined] where the deck of [createDeck()] gives 2.4. *)
Lemma createDeck_empty_w_differs :
  Deck.newCard (createDeck (Some (DeckParams.mk (Fin 0) (Array [])))) Grade.GOOD
  <> Deck.newCard (createDeck None) Grade.GOOD.
Proof.
  intros H. apply (f_equal Card.S) in H.
  rewrite createDeck_None in H.
  unfold createDeck in H. cbn [Deck.newCard] in H.
  unfold newCard in H. cbn [Card.S] in H.
  rewrite !initialStability_GOOD in H.
  discriminate H.
Qed.

(** C4, amended. A field that is falsy is replaced by its default: a
    [requestedRetentionRate] that is zero, [NaN] or absent by 0.9, and a
    [w] that is [undefined], [null], [false], zero, [NaN] or the empty
    string by the reference vector; a deck configured with both is the
    deck of [createDeck()].  An array is never falsy: it is kept whatever
    it holds, the empty array too, and the deck then computes over that
    array, with retention 0.9.  Each field falls back on its own: a
    truthy rate is kept next to a falsy [w]. *)
Theorem createDeck_falsy_fields (rate : value) (f : falsy) (l : list value) :
  truthy rate = false ->
  createDeck (Some (DeckParams.mk rate (Falsy f))) = createDeck None /\
  createDeck (Some (DeckParams.mk rate (Array l)))
  = {| Deck.newCard := newCard l (Fin 0.9);
       Deck.gradeCard := gradeCard l (Fin 0.9) |} /\
  (forall rate' : value, truthy rate' = true ->
     createDeck (Some (DeckParams.mk rate' (Falsy f)))
     = {| Deck.newCard := newCard DEFAULT_W rate';
          Deck.gradeCard := gradeCard DEFAULT_W rate' |}).
Proof.
  intros H. rewrite createDeck_None.
  unfold createDeck, createDeck_w, createDeck_requestedRetentionRate.
  cbn [createDeck_params DEFAULT_PARAMS DeckParams.w
       DeckParams.requestedRetentionRate or_else_array].
  rewrite or_else_falsy by assumption.
  repeat split.
  intros rate' H'. now rewrite or_else_truthy.
Qed.

Lemma createDeck_falsy_fields_witness :
  createDeck (Some (DeckParams.mk (Fin 0) (Falsy falsy_null)))
  = createDeck None /\
  createDeck (Some (DeckParams.mk (Fin 0) (Array [])))
  = {| Deck.newCard := newCard [] (Fin 0.9);
       Deck.gradeCard := gradeCard [] (Fin 0.9) |} /\
  (forall rate' : value, truthy rate' = true ->
     createDeck (Some (DeckParams.mk rate' (Falsy falsy_null)))
     = {| Deck.newCard := newCard DEFAULT_W rate';
          Deck.gradeCard := gradeCard DEFAULT_W rate' |}).
Proof.
  apply createDeck_falsy_fields. exact truthy_zero.
Defined.

(* ================================================================== *)
(** * Out-of-domain inputs *)
(* ================================================================== *)

Lemma signed_inf_pos (x : R) : 0 < x -> signed_inf x = PInf.
Proof.
  intros Hx. unfold signed_inf.
  destruct (total_order_T 0 x) as [[_ | E] | Hlt]; [reflexivity | lra | lra].
Qed.

Lemma signed_inf_zero : signed_inf 0 = NaN.
Proof.
  unfold signed_inf.
  destruct (total_order_T 0 0) as [[Hlt | _] | Hlt]; [lra | reflexivity | lra].
Qed.

Lemma mul_Fin_PInf (x : R) : 0 < x -> (Fin x * PInf)%js = PInf.
Proof. intros Hx. unfold mul; simpl. now apply signed_inf_pos. Qed.

Lemma mul_PInf_Fin (x : R) : 0 < x -> (PInf * Fin x)%js = PInf.
Proof. intros Hx. unfold mul; simpl. now apply signed_inf_pos. Qed.

Lemma mul_NaN_r (a : value) : (a * NaN)%js = NaN.
Proof. now destruct a. Qed.

Lemma nextInterval_Undefined (rate : value) :
  nextInterval rate Undefined = NaN.
Proof.
  unfold nextInterval.
  assert (E : (Undefined / FACTOR)%js = NaN) by (rewrite FACTOR_Fin; reflexivity).
  rewrite E. now destruct (Math_pow rate (Fin 1 / DECAY) - Fin 1)%js.
Qed.

Lemma nextInterval_NaN (rate : value) : nextInterval rate NaN = NaN.
Proof.
  unfold nextInterval.
  assert (E : (NaN / FACTOR)%js = NaN) by (rewrite FACTOR_Fin; reflexivity).
  rewrite E. now destruct (Math_pow rate (Fin 1 / DECAY) - Fin 1)%js.
Qed.

(** A grade below 1: the stability read falls before the array. *)
Lemma newCard_grade_below_1 (w : list value) (rate : value) (g : R) :
  g < 1 ->
  Card.S (newCard w rate (Fin g)) = Undefined /\
  Card.I (newCard w rate (Fin g)) = NaN.
Proof.
  intros Hg. unfold newCard; cbn [Card.S Card.I].
  assert (E : initialStability w (Fin g) = Undefined).
  { unfold initialStability. rewrite sub_Fin. apply index_negative. lra. }
  rewrite E. split; [reflexivity | apply nextInterval_Undefined].
Qed.

(** Grade 5 on the reference weights: the stability read lands on
    [w[4]], the difficulty baseline, and the difficulty is about 6.81. *)
Lemma newCard_grade_5 :
  Card.S (newCard DEFAULT_W (Fin 0.9) (Fin 5)) = Fin 4.93 /\
  approx (Card.D (newCard DEFAULT_W (Fin 0.9) (Fin 5))) 6.81 0.001 /\
  approx (Card.I (newCard DEFAULT_W (Fin 0.9) (Fin 5))) 4.93 0.001.
Proof.
  unfold newCard; cbn [Card.D Card.S Card.I].
  assert (ES : initialStability DEFAULT_W (Fin 5) = Fin 4.93).
  { unfold initialStability. rewrite sub_Fin.
    replace (5 - 1) with (IZR 4) by lra.
    rewrite index_IZR by lia. reflexivity. }
  rewrite ES, nextInterval_reference.
  rewrite initialDifficulty_Fin by exact finite_weights_DEFAULT_W.
  unfold weight; simpl.
  replace (4.93 + (5 - 3) * 0.94) with 6.81 by lra.
  rewrite Rmin_right by lra. rewrite Rmax_right by lra.
  repeat split.
  - exists 6.81. split; [reflexivity |].
    replace (6.81 - 6.81) with 0 by lra. rewrite Rabs_R0. lra.
  - exists 4.93. split; [reflexivity |].
    replace (4.93 - 4.93) with 0 by lra. rewrite Rabs_R0. lra.
Qed.

(** Stability zero: the retrievability after [t > 0] days is 0. *)
Lemma retrievability_zero_stability (t : R) :
  0 < t -> retrievability (Fin t) (Fin 0) = Fin 0.
Proof.
  intros Ht. unfold retrievability, DECAY. rewrite FACTOR_Fin.
  assert (E : (Fin t / Fin 0)%js = PInf).
  { unfold div; simpl.
    destruct (Req_dec_T 0 0) as [_ | H]; [| now destruct H].
    now apply signed_inf_pos. }
  rewrite E, mul_Fin_PInf by lra.
  unfold Math_pow; simpl.
  destruct (Req_dec_T (-0.5) 0) as [H | _]; [lra |].
  destruct (Rlt_dec 0 (-0.5)) as [H | _]; [lra | reflexivity].
Qed.

Lemma Math_pow_zero_negative (y : R) :
  y < 0 -> Math_pow (Fin 0) (Fin y) = PInf.
Proof.
  intros Hy. unfold Math_pow; simpl.
  destruct (Req_dec_T y 0) as [H | _]; [lra |].
  destruct (total_order_T 0 0) as [[H | _] | H]; [lra | | lra].
  destruct (Rlt_dec 0 y) as [H | _]; [lra | reflexivity].
Qed.

(** Stability zero on the recall branch, reference weights: the new
    stability is [0 * Infinity], that is [NaN]. *)
Lemma recall_zero_stability (d r : R) (g : value) :
  d <= 10 -> r < 1 -> is_recall_grade g ->
  nextStabilityAfterRecall DEFAULT_W (Fin d) (Fin 0) (Fin r) g = NaN.
Proof.
  intros Hd Hr Hg.
  destruct (hard_penalty_Fin DEFAULT_W g finite_weights_DEFAULT_W)
    as (h & Eh & Hh1 & Hh2).
  destruct (easy_bound_Fin DEFAULT_W g finite_weights_DEFAULT_W)
    as (e & Ee & He1 & He2).
  assert (Hhe : 0 < h /\ 0 < e).
  { destruct Hg as [Hg | [Hg | Hg]].
    - rewrite (Hh1 Hg), He2 by tauto. unfold weight; simpl. lra.
    - rewrite Hh2, He2 by tauto. lra.
    - rewrite Hh2, (He1 Hg) by tauto. unfold weight; simpl. lra. }
  unfold nextStabilityAfterRecall. rewrite Eh, Ee.
  weights finite_weights_DEFAULT_W. unfold weight; simpl nth.
  rewrite neg_Fin, Math_pow_zero_negative by lra.
  autorewrite with js.
  assert (Hk : 0 < exp ((1 - r) * 0.94) - 1).
  { assert (H : exp 0 < exp ((1 - r) * 0.94)).
    { apply exp_increasing. apply Rmult_lt_0_compat; lra. }
    rewrite exp_0 in H. lra. }
  rewrite mul_Fin_PInf
    by (apply Rmult_lt_0_compat; [apply exp_pos | lra]).
  rewrite !mul_PInf_Fin by lra.
  unfold add, mul; simpl. apply signed_inf_zero.
Qed.

(** A retention rate above 1 gives a negative interval. *)
Lemma nextInterval_rate_above_1 (rate s : R) :
  1 < rate -> 0 < s ->
  exists i : R, nextInterval (Fin rate) (Fin s) = Fin i /\ i < 0.
Proof.
  intros Hr Hs. eexists. split; [apply nextInterval_Fin; lra |].
  rewrite Rpower_neg2 by lra.
  assert (H1 : / (rate * rate) < 1).
  { rewrite <- Rinv_1. apply Rinv_lt_contravar; nra. }
  assert (H2 : 0 < s / (19 / 81)) by (apply Rdiv_lt_0_compat; lra).
  nra.
Qed.




(* ================================================================== *)
(** * Bounds on the exponential *)
(* ================================================================== *)

Lemma exp_taylor_0 (n : nat) : exp_taylor n 0 = 1.
Proof.
  induction n as [| n IH]; [reflexivity |].
  cbn [exp_taylor]. rewrite IH, pow_i by lia. unfold Rdiv. ring.
Qed.

Lemma derivable_pt_lim_monomial (n : nat) (x : R) :
  derivable_pt_lim (fun y => y ^ (S n) / INR (fact (S n))) x
    (x ^ n / INR (fact n)).
Proof.
  apply derivable_pt_lim_ext
    with (f := mult_real_fct (/ INR (fact (S n))) (fun y => y ^ (S n))).
  { intros z. unfold mult_real_fct, Rdiv. ring. }
  replace (x ^ n / INR (fact n))
    with (/ INR (fact (S n)) * (INR (S n) * x ^ pred (S n))).
  - apply derivable_pt_lim_scal, derivable_pt_lim_pow.
  - rewrite fact_simpl, mult_INR. cbn [pred].
    field. split; [apply INR_fact_neq_0 | apply not_0_INR; lia].
Qed.

(** The derivative of a Taylor polynomial is the one a degree below. *)
Lemma derivable_pt_lim_exp_taylor (n : nat) (x : R) :
  derivable_pt_lim (exp_taylor (S n)) x (exp_taylor n x).
Proof.
  induction n as [| n IH].
  - apply derivable_pt_lim_ext with (f := fun y => 1 + y).
    { intros z. cbn. field. }
    replace (exp_taylor 0 x) with (0 + 1) by (cbn; ring).
    apply (derivable_pt_lim_plus (fct_cte 1) id).
    + apply derivable_pt_lim_const.
    + apply derivable_pt_lim_id.
  - apply derivable_pt_lim_ext
      with (f := plus_fct (exp_taylor (S n))
                   (fun y => y ^ (S (S n)) / INR (fact (S (S n))))).
    { intros z. reflexivity. }
    change (exp_taylor (S n) x)
      with (exp_taylor n x + x ^ (S n) / INR (fact (S n))).
    apply derivable_pt_lim_plus; [exact IH | apply derivable_pt_lim_monomial].
Qed.

Lemma derivable_pt_lim_exp_rest (n : nat) (x : R) :
  derivable_pt_lim (exp_rest (S n)) x (exp_rest n x).
Proof.
  apply (derivable_pt_lim_minus exp (exp_taylor (S n))).
  - apply derivable_pt_lim_exp.
  - apply derivable_pt_lim_exp_taylor.
Qed.

Lemma exp_rest_0 (n : nat) : exp_rest n 0 = 0.
Proof. unfold exp_rest. rewrite exp_0, exp_taylor_0. ring. Qed.

(** Mean value theorem between 0 and [x], on either side of 0. *)
Lemma exp_rest_mean_pos (n : nat) (x : R) :
  0 < x -> exists c : R, exp_rest (S n) x = exp_rest n c * x /\ 0 < c < x.
Proof.
  intros Hx.
  destruct (MVT_cor2 (exp_rest (S n)) (exp_rest n) 0 x Hx) as (c & E & Hc).
  { intros c _. apply derivable_pt_lim_exp_rest. }
  exists c. split; [| exact Hc].
  rewrite exp_rest_0 in E. lra.
Qed.

Lemma exp_rest_mean_neg (n : nat) (x : R) :
  x < 0 -> exists c : R, exp_rest (S n) x = exp_rest n c * x /\ x < c < 0.
Proof.
  intros Hx.
  destruct (MVT_cor2 (exp_rest (S n)) (exp_rest n) x 0 Hx) as (c & E & Hc).
  { intros c _. apply derivable_pt_lim_exp_rest. }
  exists c. split; [| exact Hc].
  rewrite exp_rest_0 in E. lra.
Qed.

(** A Taylor polynomial of odd degree lies below the exponential on the
    whole line: by induction two degrees at a time, the rest of even
    degree in between having the sign of [x]. *)
Lemma exp_rest_odd_nonneg (k : nat) (x : R) : 0 <= exp_rest (S (2 * k)) x.
Proof.
  revert x. induction k as [| k IH]; intros x.
  - unfold exp_rest. cbn. pose proof (exp_ineq1_le x). lra.
  - replace (S (2 * S k)) with (S (S (S (2 * k)))) by lia.
    assert (Heven : forall y : R,
              (0 < y -> 0 <= exp_rest (S (S (2 * k))) y) /\
              (y < 0 -> exp_rest (S (S (2 * k))) y <= 0)).
    { intros y. split; intros Hy.
      - destruct (exp_rest_mean_pos (S (2 * k)) y Hy) as (c & -> & Hc).
        apply Rmult_le_pos; [apply IH | lra].
      - destruct (exp_rest_mean_neg (S (2 * k)) y Hy) as (c & -> & Hc).
        pose proof (IH c). nra. }
    destruct (Rtotal_order x 0) as [Hx | [-> | Hx]].
    + destruct (exp_rest_mean_neg (S (S (2 * k))) x Hx) as (c & -> & Hc).
      destruct (Heven c) as [_ Hn]. specialize (Hn (proj2 Hc)). nra.
    + rewrite exp_rest_0. lra.
    + destruct (exp_rest_mean_pos (S (S (2 * k))) x Hx) as (c & -> & Hc).
      destruct (Heven c) as [Hp _]. specialize (Hp (proj1 Hc)). nra.
Qed.

Lemma exp_taylor_7 (x : R) : exp_taylor 7 x = exp_poly7 x.
Proof.
  unfold exp_poly7. cbn [exp_taylor].
  rewrite !INR_IZR_INZ.
  replace (Z.of_nat (fact 1)) with 1%Z by (vm_compute; reflexivity).
  replace (Z.of_nat (fact 2)) with 2%Z by (vm_compute; reflexivity).
  replace (Z.of_nat (fact 3)) with 6%Z by (vm_compute; reflexivity).
  replace (Z.of_nat (fact 4)) with 24%Z by (vm_compute; reflexivity).
  replace (Z.of_nat (fact 5)) with 120%Z by (vm_compute; reflexivity).
  replace (Z.of_nat (fact 6)) with 720%Z by (vm_compute; reflexivity).
  replace (Z.of_nat (fact 7)) with 5040%Z by (vm_compute; reflexivity).
  field.
Qed.

Lemma exp_poly7_le_exp (x : R) : exp_poly7 x <= exp x.
Proof.
  rewrite <- exp_taylor_7.
  pose proof (exp_rest_odd_nonneg 3 x) as H. unfold exp_rest in H.
  change (S (2 * 3)) with 7%nat in H. lra.
Qed.

(** The two bounds used below: from the polynomial at [x], and from the
    polynomial at [- x] through [exp x = / exp (- x)]. *)
Lemma exp_lower (x lo : R) : lo <= exp_poly7 x -> lo <= exp x.
Proof. intros H. pose proof (exp_poly7_le_exp x). lra. Qed.

Lemma exp_upper (x hi : R) :
  0 < exp_poly7 (- x) -> 1 <= hi * exp_poly7 (- x) -> exp x <= hi.
Proof.
  intros Hp Hhi. pose proof (exp_poly7_le_exp (- x)) as H.
  rewrite exp_Ropp in H. pose proof (exp_pos x) as He.
  assert (Hpos : 0 < hi).
  { destruct (Rle_or_lt hi 0) as [Hn | Hpz]; [nra | exact Hpz]. }
  assert (H1 : 1 <= hi * / exp x).
  { apply Rle_trans with (hi * exp_poly7 (- x)); [exact Hhi |].
    apply Rmult_le_compat_l; lra. }
  apply Rmult_le_compat_r with (r := exp x) in H1; [| lra].
  rewrite Rmult_assoc, Rinv_l in H1 by lra. lra.
Qed.

Lemma exp_le_mono (x y : R) : x <= y -> exp x <= exp y.
Proof.
  intros [H | ->]; [left; now apply exp_increasing | lra].
Qed.

(** Bounds on [exp (4 * x)] from bounds on [exp x]. *)
Lemma exp_quadruple (x lo hi l h : R) :
  0 <= lo -> lo <= exp x <= hi ->
  l <= lo * lo * lo * lo -> hi * hi * hi * hi <= h ->
  l <= exp (4 * x) <= h.
Proof.
  intros Hlo [H1 H2] Hl Hh.
  replace (4 * x) with (x + x + (x + x)) by ring.
  rewrite !exp_plus.
  assert (Hsq : lo * lo <= exp x * exp x <= hi * hi)
    by (split; apply Rmult_le_compat; lra).
  assert (H0 : 0 <= lo * lo) by (apply Rmult_le_pos; lra).
  assert (Hq : lo * lo * (lo * lo) <= exp x * exp x * (exp x * exp x)
               <= hi * hi * (hi * hi))
    by (split; apply Rmult_le_compat; lra).
  lra.
Qed.

(* ================================================================== *)
(** * The reference scenario *)
(* ================================================================== *)

Lemma exp_149_bounds : 4.43708 <= exp 1.49 <= 4.43711.
Proof.
  replace 1.49 with (4 * 0.3725) by lra.
  apply exp_quadruple with (lo := 1.451358) (hi := 1.451359); try lra.
  split.
  - apply exp_lower. unfold exp_poly7. lra.
  - apply exp_upper; unfold exp_poly7; lra.
Qed.

Lemma ln_24_bounds : 0.87546 < ln 2.4 < 0.87547.
Proof.
  split.
  - rewrite <- (ln_exp 0.87546).
    apply ln_increasing; [apply exp_pos |].
    replace 0.87546 with (4 * 0.218865) by lra.
    assert (H : 0 <= exp (4 * 0.218865) <= 2.39999); [| lra].
    apply exp_quadruple with (lo := 0) (hi := 1.244664); try lra.
    split.
    + left. apply exp_pos.
    + apply exp_upper; unfold exp_poly7; lra.
  - rewrite <- (ln_exp 0.87547).
    apply ln_increasing; [lra |].
    replace 0.87547 with (4 * 0.2188675) by lra.
    assert (H : 2.4000001 <= exp (4 * 0.2188675) <= 3); [| lra].
    apply exp_quadruple with (lo := 1.2446663) (hi := 1.3); try lra.
    split.
    + apply exp_lower. unfold exp_poly7. lra.
    + apply exp_upper; unfold exp_poly7; lra.
Qed.

Lemma Rpower_24_bounds : 0.884647 <= Rpower 2.4 (-0.14) <= 0.88465.
Proof.
  unfold Rpower. pose proof ln_24_bounds as [H1 H2]. split.
  - apply Rle_trans with (exp (- 0.14 * 0.87547)).
    + apply exp_lower. unfold exp_poly7. lra.
    + apply exp_le_mono. lra.
  - apply Rle_trans with (exp (- 0.14 * 0.87546)).
    + apply exp_le_mono. lra.
    + apply exp_upper; unfold exp_poly7; lra.
Qed.

Lemma exp_0094_bounds : 1.0985597 <= exp ((1 - 0.9) * 0.94) <= 1.0985598.
Proof.
  replace ((1 - 0.9) * 0.94) with 0.094 by lra. split.
  - apply exp_lower. unfold exp_poly7. lra.
  - apply exp_upper; unfold exp_poly7; lra.
Qed.

(** The retrievability of the reference card after 2 days. *)
Lemma retrievability_2_bounds :
  exists r : R,
    retrievability (Fin 2) (Fin 2.4) = Fin r /\ 0.914597 < r < 0.914598.
Proof.
  eexists. split; [apply retrievability_Fin; lra |].
  replace (1 + 19 / 81 * (2 / 2.4)) with (581 / 486) by lra.
  set (r := Rpower (581 / 486) (-0.5)).
  assert (Hpos : 0 < r) by apply Rpower_pos.
  assert (Hsq : r * r = 486 / 581).
  { unfold r. rewrite <- Rpower_plus.
    replace (-0.5 + -0.5) with (Ropp 1) by lra.
    rewrite Rpower_Ropp, Rpower_1 by lra. field. }
  split; nra.
Qed.

Lemma exp_recall_2_bounds (r : R) :
  0.914597 < r < 0.914598 ->
  1.083587 <= exp ((1 - r) * 0.94) <= 1.08359.
Proof.
  intros Hr. split.
  - apply Rle_trans with (exp ((1 - 0.914598) * 0.94)).
    + apply exp_lower. unfold exp_poly7. lra.
    + apply exp_le_mono. lra.
  - apply Rle_trans with (exp ((1 - 0.914597) * 0.94)).
    + apply exp_le_mono. lra.
    + apply exp_upper; unfold exp_poly7; lra.
Qed.

(** The product of three bounded positive factors. *)
Lemma product_bounds (a b c alo ahi blo bhi clo chi : R) :
  0 <= alo -> 0 <= blo -> 0 <= clo ->
  alo <= a <= ahi -> blo <= b <= bhi -> clo <= c <= chi ->
  alo * blo * clo <= a * b * c <= ahi * bhi * chi.
Proof.
  intros Ha Hb Hc [A1 A2] [B1 B2] [C1 C2].
  assert (Hab : alo * blo <= a * b <= ahi * bhi)
    by (split; apply Rmult_le_compat; lra).
  assert (H0 : 0 <= alo * blo) by (apply Rmult_le_pos; lra).
  split; apply Rmult_le_compat; lra.
Qed.

Lemma newCard_GOOD_reference :
  newCard DEFAULT_W (Fin 0.9) Grade.GOOD
  = {| Card.D := Fin 4.93; Card.S := Fin 2.4; Card.I := Fin 2.4 |}.
Proof.
  unfold newCard. rewrite initialStability_GOOD. simpl nth.
  rewrite nextInterval_reference. unfold Grade.GOOD.
  rewrite initialDifficulty_Fin by exact finite_weights_DEFAULT_W.
  unfold weight; simpl.
  replace (4.93 + (3 - 3) * 0.94) with 4.93 by lra.
  rewrite Rmin_right by lra. rewrite Rmax_right by lra. reflexivity.
Qed.

Lemma reference_card_eq :
  reference_card
  = {| Card.D := Fin 4.93; Card.S := Fin 2.4; Card.I := Fin 2.4 |}.
Proof.
  unfold reference_card. rewrite createDeck_None.
  exact newCard_GOOD_reference.
Qed.

Lemma nextDifficulty_reference_EASY :
  nextDifficulty DEFAULT_W (Fin 4.93) Grade.EASY = Fin 4.0786.
Proof.
  unfold Grade.EASY.
  rewrite nextDifficulty_Fin by exact finite_weights_DEFAULT_W.
  f_equal. unfold weight; simpl.
  replace (4.93 + (3 - 3) * 0.94) with 4.93 by lra.
  rewrite (Rmin_right 10 4.93) by lra.
  rewrite (Rmax_right 1 4.93) by lra.
  replace (0.01 * 4.93 + (1 - 0.01) * (4.93 - 0.86 * (4 - 3)))
    with 4.0786 by lra.
  rewrite Rmin_right by lra. rewrite Rmax_right by lra. reflexivity.
Qed.

(** The reference card graded [EASY] on the default deck, for a
    retrievability [r]: difficulty, stability and interval. *)
Lemma gradeCard_reference_EASY (t r : R) :
  retrievability (Fin t) (Fin 2.4) = Fin r ->
  Deck.gradeCard (createDeck None) reference_card (Fin t) Grade.EASY
  = let s' := 2.4 * (1 + 2.61 * (11 - 4.0786)
                         * (exp 1.49 * Rpower 2.4 (-0.14)
                            * (exp ((1 - r) * 0.94) - 1))) in
    {| Card.D := Fin 4.0786; Card.S := Fin s'; Card.I := Fin s' |}.
Proof.
  intros Hr. rewrite reference_card_eq, createDeck_None.
  cbn [Deck.gradeCard]. unfold gradeCard; cbn [Card.S Card.D].
  rewrite recall_grade_not_AGAIN by (unfold is_recall_grade; tauto).
  rewrite Hr, nextDifficulty_reference_EASY.
  destruct (nextStabilityAfterRecall_Fin DEFAULT_W 4.0786 2.4 r Grade.EASY
              finite_weights_DEFAULT_W) as (h & e & E & _ & _ & HE);
    [lra |].
  destruct (HE eq_refl) as [-> ->].
  rewrite E, nextInterval_reference.
  unfold weight; simpl nth; cbv iota zeta.
  replace (Ropp 0.14) with (-0.14) by lra.
  assert (Es : 2.4 * (1 + exp 1.49 * (11 - 4.0786) * Rpower 2.4 (-0.14)
                          * (exp ((1 - r) * 0.94) - 1) * 1 * 2.61)
               = 2.4 * (1 + 2.61 * (11 - 4.0786)
                            * (exp 1.49 * Rpower 2.4 (-0.14)
                               * (exp ((1 - r) * 0.94) - 1)))) by lra.
  now rewrite Es.
Qed.

(** The interval of the graded reference card, from bounds on the
    exponential of the recall term. *)
Lemma gradeCard_reference_EASY_interval (t r clo chi lo hi : R) :
  retrievability (Fin t) (Fin 2.4) = Fin r ->
  1 <= clo -> clo <= exp ((1 - r) * 0.94) <= chi ->
  lo < 2.4 * (1 + 2.61 * (11 - 4.0786)
                  * (4.43708 * 0.884647 * (clo - 1))) ->
  2.4 * (1 + 2.61 * (11 - 4.0786) * (4.43711 * 0.88465 * (chi - 1))) < hi ->
  exists y : R,
    Card.I (Deck.gradeCard (createDeck None) reference_card (Fin t)
              Grade.EASY) = Fin y /\
    lo < y < hi.
Proof.
  intros Hr H1 Hc Hlo Hhi.
  rewrite (gradeCard_reference_EASY t r Hr). cbn [Card.I].
  eexists. split; [reflexivity |].
  pose proof (product_bounds (exp 1.49) (Rpower 2.4 (-0.14))
                (exp ((1 - r) * 0.94) - 1)
                4.43708 4.43711 0.884647 0.88465 (clo - 1) (chi - 1)) as HP.
  destruct HP as [P1 P2];
    [lra | lra | lra | exact exp_149_bounds | exact Rpower_24_bounds | lra |].
  lra.
Qed.

Lemma graded_after_stability_days :
  exists y : R,
    Card.I (Deck.gradeCard (createDeck None) reference_card (Fin 2.4)
              Grade.EASY) = Fin y /\
    19.17 < y < 19.18.
Proof.
  apply gradeCard_reference_EASY_interval
    with (r := 0.9) (clo := 1.0985597) (chi := 1.0985598).
  - apply retrievability_at_stability. lra.
  - lra.
  - exact exp_0094_bounds.
  - lra.
  - lra.
Qed.

Lemma graded_after_2_days :
  exists y : R,
    Card.I (Deck.gradeCard (createDeck None) reference_card (Fin 2)
              Grade.EASY) = Fin y /\
    16.62 < y < 16.63.
Proof.
  destruct retrievability_2_bounds as (r & Er & Hr).
  apply gradeCard_reference_EASY_interval
    with (r := r) (clo := 1.083587) (chi := 1.08359).
  - exact Er.
  - lra.
  - now apply exp_recall_2_bounds.
  - lra.
  - lra.
Qed.

(** C3, as stated, fails: graded [EASY] after 2.4 days, the reference
    card comes back with an interval above 19 days, not within a day of
    16.63. *)
Lemma reference_scenario_as_stated_fails :
  ~ approx (Card.I (Deck.gradeCard (createDeck None) reference_card (Fin 2.4)
                      Grade.EASY)) 16.63 1.
Proof.
  intros (y & Ey & Hy).
  destruct graded_after_stability_days as (y' & Ey' & Hy').
  rewrite Ey in Ey'. injection Ey' as <-.
  apply Rabs_def2 in Hy. lra.
Qed.

(** C3, amended. On the default deck [newCard(GOOD)] returns [D = 4.93],
    [S = 2.4] and an interval of approximately 2.4 days; that card graded
    [EASY] after 2 days comes back with an interval of approximately
    16.63 days, and graded [EASY] after 2.4 days with an interval of
    approximately 19.17 days. *)
Theorem reference_scenario :
  Card.D (Deck.newCard (createDeck None) Grade.GOOD) = Fin 4.93 /\
  Card.S (Deck.newCard (createDeck None) Grade.GOOD) = Fin 2.4 /\
  approx (Card.I (Deck.newCard (createDeck None) Grade.GOOD)) 2.4 0.01 /\
  approx (Card.I (Deck.gradeCard (createDeck None) reference_card (Fin 2)
                    Grade.EASY)) 16.63 0.01 /\
  approx (Card.I (Deck.gradeCard (createDeck None) reference_card (Fin 2.4)
                    Grade.EASY)) 19.17 0.01.
Proof.
  pose proof reference_card_eq as E. unfold reference_card in E.
  rewrite E. cbn [Card.D Card.S Card.I].
  split; [reflexivity |]. split; [reflexivity |]. split; [| split].
  - exists 2.4. split; [reflexivity |].
    replace (2.4 - 2.4) with 0 by lra. rewrite Rabs_R0. lra.
  - destruct graded_after_2_days as (y & Ey & Hy).
    exists y. split; [exact Ey |]. apply Rabs_def1; lra.
  - destruct graded_after_stability_days as (y & Ey & Hy).
    exists y. split; [exact Ey |]. apply Rabs_def1; lra.
Qed.

(* ================================================================== *)
(** * The forgetting curve and its inverse *)
(* ================================================================== *)

Lemma retrievability_base (t s : R) :
  0 <= t -> 0 < s -> 1 <= 1 + 19 / 81 * (t / s).
Proof.
  intros Ht Hs.
  assert (0 <= t / s) by (apply Rmult_le_pos; [lra | left; now apply Rinv_0_lt_compat]).
  lra.
Qed.

(** The power [-0.5] turns a larger base into a smaller value. *)
Lemma Rpower_neg_half_decreasing (a b : R) :
  0 < a -> a < b -> Rpower b (-0.5) < Rpower a (-0.5).
Proof.
  intros Ha Hab.
  replace (-0.5) with (Ropp 0.5) by lra.
  rewrite !Rpower_Ropp.
  apply Rinv_lt_contravar.
  - apply Rmult_lt_0_compat; apply Rpower_pos.
  - apply Rlt_Rpower_l; lra.
Qed.

Lemma Rpower_neg_half_below_1 (b : R) : 1 < b -> Rpower b (-0.5) < 1.
Proof.
  intros Hb. rewrite <- (Rpower_base_1 (-0.5)).
  apply Rpower_neg_half_decreasing; lra.
Qed.

(** X1. For elapsed days [t >= 0] and a stability [s > 0] the
    retrievability is a probability, a number between 0 and 1; it is 1
    when no time has elapsed. *)
Theorem retrievability_probability (t s : R) :
  0 <= t -> 0 < s ->
  (exists r : R, retrievability (Fin t) (Fin s) = Fin r /\ 0 <= r <= 1) /\
  retrievability (Fin 0) (Fin s) = Fin 1.
Proof.
  intros Ht Hs. pose proof (retrievability_base t s Ht Hs) as Hb.
  split; [| now apply retrievability_zero].
  eexists. split; [apply retrievability_Fin; lra |].
  pose proof (Rpower_pos (1 + 19 / 81 * (t / s)) (-0.5)) as H0.
  destruct Hb as [Hb | <-].
  - pose proof (Rpower_neg_half_below_1 _ Hb) as H1. lra.
  - rewrite Rpower_base_1. lra.
Qed.

Lemma retrievability_probability_witness :
  (exists r : R, retrievability (Fin 3) (Fin 2) = Fin r /\ 0 <= r <= 1) /\
  retrievability (Fin 0) (Fin 2) = Fin 1.
Proof.
  apply retrievability_probability; lra.
Defined.

(** The forgetting curve falls with time and rises with stability. *)
Lemma retrievability_order (t1 t2 s1 s2 : R) :
  0 <= t1 -> t1 < t2 -> 0 < s1 -> s1 < s2 ->
  exists r11 r21 r22 : R,
    retrievability (Fin t1) (Fin s1) = Fin r11 /\
    retrievability (Fin t2) (Fin s1) = Fin r21 /\
    retrievability (Fin t2) (Fin s2) = Fin r22 /\
    r21 < r11 /\ r21 < r22.
Proof.
  intros Ht1 Ht Hs1 Hs.
  pose proof (retrievability_base t1 s1 Ht1 Hs1) as B11.
  assert (B21 : 1 <= 1 + 19 / 81 * (t2 / s1)) by (apply retrievability_base; lra).
  assert (B22 : 1 <= 1 + 19 / 81 * (t2 / s2)) by (apply retrievability_base; lra).
  do 3 eexists.
  split; [apply retrievability_Fin; lra |].
  split; [apply retrievability_Fin; lra |].
  split; [apply retrievability_Fin; lra |].
  split; apply Rpower_neg_half_decreasing; try lra.
  - assert (t1 / s1 < t2 / s1); [| lra].
    apply Rmult_lt_compat_r; [now apply Rinv_0_lt_compat | lra].
  - assert (t2 / s2 < t2 / s1); [| lra].
    apply Rmult_lt_compat_l; [lra |].
    apply Rinv_lt_contravar; [apply Rmult_lt_0_compat; lra | lra].
Qed.

(** X2. The forgetting curve falls with time and rises with stability.
    For stabilities between a millionth of a day and a million days:
    waiting longer by at least a thousandth of the stability, up to a
    thousand times the stability, gives a strictly smaller
    retrievability; and a stability larger by at least a thousandth gives
    a strictly larger one after the same days. *)
Theorem retrievability_monotone (t1 t2 s1 s2 : R) :
  0.000001 <= s1 -> 0 <= t1 -> t1 + s1 / 1000 <= t2 -> t2 <= 1000 * s1 ->
  1.001 * s1 <= s2 -> s2 <= 1000000 ->
  exists r11 r21 r22 : R,
    retrievability (Fin t1) (Fin s1) = Fin r11 /\
    retrievability (Fin t2) (Fin s1) = Fin r21 /\
    retrievability (Fin t2) (Fin s2) = Fin r22 /\
    r21 < r11 /\ r21 < r22.
Proof.
  intros Hs1 Ht1 Ht Ht2 Hs Hs2.
  apply retrievability_order; lra.
Qed.

Lemma retrievability_monotone_witness :
  exists r11 r21 r22 : R,
    retrievability (Fin 1) (Fin 2) = Fin r11 /\
    retrievability (Fin 3) (Fin 2) = Fin r21 /\
    retrievability (Fin 3) (Fin 5) = Fin r22 /\
    r21 < r11 /\ r21 < r22.
Proof.
  apply retrievability_monotone; lra.
Defined.

Lemma nextInterval_formula (r s : R) :
  0 < r ->
  nextInterval (Fin r) (Fin s) = Fin (s / (19 / 81) * (/ (r * r) - 1)).
Proof.
  intros Hr. rewrite nextInterval_Fin by assumption.
  now rewrite Rpower_neg2.
Qed.

Lemma inv_square_ge_1 (r : R) : 0 < r <= 1 -> 1 <= / (r * r).
Proof.
  intros [H0 H1]. rewrite <- Rinv_1.
  apply Rinv_le_contravar; nra.
Qed.

(** X3. For a requested retention [r] from 0.01 to 1 and a stability
    [s] up to a million days the interval is a non-negative number of
    days; for retention 1 it is zero. *)
Theorem nextInterval_nonneg (r s : R) :
  0.01 <= r <= 1 -> 0 < s <= 1000000 ->
  (exists i : R, nextInterval (Fin r) (Fin s) = Fin i /\ 0 <= i) /\
  nextInterval (Fin 1) (Fin s) = Fin 0.
Proof.
  intros Hr Hs. split.
  - eexists. split; [apply nextInterval_formula; lra |].
    assert (H1 : 1 <= / (r * r)) by (apply inv_square_ge_1; lra).
    assert (Hk : 0 < s / (19 / 81)) by (apply Rdiv_lt_0_compat; lra).
    apply Rmult_le_pos; lra.
  - rewrite nextInterval_formula by lra. f_equal.
    replace (1 * 1) with 1 by ring. rewrite Rinv_1. ring.
Qed.

Lemma nextInterval_nonneg_witness :
  (exists i : R, nextInterval (Fin 0.8) (Fin 2) = Fin i /\ 0 <= i) /\
  nextInterval (Fin 1) (Fin 2) = Fin 0.
Proof.
  apply nextInterval_nonneg; lra.
Defined.

(** Asking for a higher retention shortens the interval, and a more
    stable memory lengthens it. *)
Lemma nextInterval_order (r1 r2 s1 s2 : R) :
  0 < r1 -> r1 < r2 -> r2 <= 1 -> 0 < s1 -> s1 < s2 ->
  exists i21 i11 i12 : R,
    nextInterval (Fin r2) (Fin s1) = Fin i21 /\
    nextInterval (Fin r1) (Fin s1) = Fin i11 /\
    nextInterval (Fin r1) (Fin s2) = Fin i12 /\
    i21 < i11 /\ i11 < i12.
Proof.
  intros Hr1 Hr Hr2 Hs1 Hs.
  do 3 eexists.
  split; [apply nextInterval_formula; lra |].
  split; [apply nextInterval_formula; lra |].
  split; [apply nextInterval_formula; lra |].
  assert (H21 : 1 <= / (r2 * r2)) by (apply inv_square_ge_1; lra).
  assert (Hinv : / (r2 * r2) < / (r1 * r1)).
  { apply Rinv_lt_contravar; [| nra].
    apply Rmult_lt_0_compat; apply Rmult_lt_0_compat; lra. }
  assert (Hk1 : 0 < s1 / (19 / 81)) by (apply Rdiv_lt_0_compat; lra).
  assert (Hk : s1 / (19 / 81) < s2 / (19 / 81)).
  { apply Rmult_lt_compat_r; [apply Rinv_0_lt_compat; lra | lra]. }
  split.
  - apply Rmult_lt_compat_l; lra.
  - apply Rmult_lt_compat_r; lra.
Qed.

(** X4. Asking for a higher retention shortens the interval, and a more
    stable memory lengthens it.  For retentions from 0.01 to 1 and
    stabilities between a millionth of a day and a million days: a
    retention higher by at least a thousandth gives a strictly shorter
    interval, and a stability larger by at least a thousandth a strictly
    longer one. *)
Theorem nextInterval_monotone (r1 r2 s1 s2 : R) :
  0.01 <= r1 -> 1.001 * r1 <= r2 -> r2 <= 1 ->
  0.000001 <= s1 -> 1.001 * s1 <= s2 -> s2 <= 1000000 ->
  exists i21 i11 i12 : R,
    nextInterval (Fin r2) (Fin s1) = Fin i21 /\
    nextInterval (Fin r1) (Fin s1) = Fin i11 /\
    nextInterval (Fin r1) (Fin s2) = Fin i12 /\
    i21 < i11 /\ i11 < i12.
Proof.
  intros Hr1 Hr Hr2 Hs1 Hs Hs2.
  apply nextInterval_order; lra.
Qed.

Lemma nextInterval_monotone_witness :
  exists i21 i11 i12 : R,
    nextInterval (Fin 0.9) (Fin 2) = Fin i21 /\
    nextInterval (Fin 0.8) (Fin 2) = Fin i11 /\
    nextInterval (Fin 0.8) (Fin 5) = Fin i12 /\
    i21 < i11 /\ i11 < i12.
Proof.
  apply nextInterval_monotone; lra.
Defined.

(* ================================================================== *)
(** * First exposure *)
(* ================================================================== *)

Lemma index_not_integer (w : list value) (x : R) :
  (forall z : Z, x <> IZR z) -> (w.[Fin x])%js = Undefined.
Proof.
  intros Hx. unfold index, is_integer.
  destruct (Req_dec_T x (IZR (Int_part x))) as [E | _]; [| reflexivity].
  now destruct (Hx _ E).
Qed.

(** X5. [initialStability] is a plain array read at [G - 1]: for an
    integer grade [k] from 1 to the length of the array it is the element
    at position [k - 1], whatever the grade means (on the seventeen
    weights the grades 5 to 17 read the other weights); for a grade that
    is not an integer, is below 1 or is beyond the length it is
    [undefined]. *)
Theorem initialStability_lookup (w : list value) :
  (forall k : Z, (1 <= k <= Z.of_nat (length w))%Z ->
     initialStability w (Fin (IZR k)) = nth (Z.to_nat (k - 1)) w Undefined) /\
  (forall g : R,
     (forall z : Z, g <> IZR z) \/ g < 1 \/ INR (length w) < g ->
     initialStability w (Fin g) = Undefined).
Proof.
  split.
  - intros k Hk. unfold initialStability. rewrite sub_Fin.
    rewrite <- minus_IZR. apply index_IZR. lia.
  - intros g Hg. unfold initialStability. rewrite sub_Fin.
    destruct (Req_dec_T (g - 1) (IZR (Int_part (g - 1)))) as [E | NE].
    + remember (Int_part (g - 1)) as z eqn:Hz. clear Hz.
      destruct Hg as [Hg | [Hg | Hg]].
      * exfalso. apply (Hg (z + 1)%Z). rewrite plus_IZR. lra.
      * apply index_negative. lra.
      * pose proof (pos_INR (length w)) as Hlen.
        assert (Hlt : IZR (Z.of_nat (length w)) < IZR (z + 1)).
        { rewrite plus_IZR, <- E, <- INR_IZR_INZ. lra. }
        apply lt_IZR in Hlt.
        rewrite E, index_IZR by lia.
        apply nth_overflow. lia.
    + apply index_not_integer. intros z Hz. apply NE.
      rewrite Hz, Int_part_IZR. reflexivity.
Qed.

Lemma clamp_monotone (x y : R) :
  x <= y -> Rmax 1 (Rmin 10 x) <= Rmax 1 (Rmin 10 y).
Proof.
  intros H. apply Rle_max_compat_l. apply Rle_min_compat_l. exact H.
Qed.

Lemma clamp_id (x : R) : 1 <= x <= 10 -> Rmax 1 (Rmin 10 x) = x.
Proof.
  intros [H1 H2]. rewrite Rmin_right by exact H2. now apply Rmax_right.
Qed.

(** X6. The initial difficulty rises with the grade: on finite weights
    with [w[5] >= 0], a grade number that is larger gives an initial
    difficulty that is at least as large (the offset [(G - 3) * w[5]] is
    added, so [EASY] starts harder than [AGAIN]); and when [w[4]] lies in
    [1, 10] the initial difficulty of [GOOD] is [w[4]] itself. *)
Theorem initialDifficulty_grade (w : list value) (g1 g2 : R) :
  finite_weights w -> 0 <= weight w 5 -> g1 <= g2 ->
  (exists d1 d2 : R,
     initialDifficulty w (Fin g1) = Fin d1 /\
     initialDifficulty w (Fin g2) = Fin d2 /\ d1 <= d2) /\
  (1 <= weight w 4 <= 10 ->
   initialDifficulty w Grade.GOOD = Fin (weight w 4)).
Proof.
  intros Hw H5 Hg. split.
  - do 2 eexists.
    split; [now apply initialDifficulty_Fin |].
    split; [now apply initialDifficulty_Fin |].
    apply clamp_monotone.
    assert ((g1 - 3) * weight w 5 <= (g2 - 3) * weight w 5)
      by (apply Rmult_le_compat_r; lra).
    lra.
  - intros H4. unfold Grade.GOOD.
    rewrite initialDifficulty_Fin by assumption. f_equal.
    replace (weight w 4 + (3 - 3) * weight w 5) with (weight w 4) by ring.
    now apply clamp_id.
Qed.

Lemma weight_DEFAULT_W_5 : 0 <= weight DEFAULT_W 5.
Proof. unfold weight; simpl. lra. Qed.

Lemma initialDifficulty_grade_witness :
  (exists d1 d2 : R,
     initialDifficulty DEFAULT_W (Fin 1) = Fin d1 /\
     initialDifficulty DEFAULT_W (Fin 4) = Fin d2 /\ d1 <= d2) /\
  (1 <= weight DEFAULT_W 4 <= 10 ->
   initialDifficulty DEFAULT_W Grade.GOOD = Fin (weight DEFAULT_W 4)).
Proof.
  apply initialDifficulty_grade.
  - exact finite_weights_DEFAULT_W.
  - exact weight_DEFAULT_W_5.
  - lra.
Defined.

(* ================================================================== *)
(** * The difficulty update *)
(* ================================================================== *)

(** The value [nextDifficulty] clamps, with the baseline spelled out. *)
Lemma nextDifficulty_baseline (w : list value) (d g : R) :
  finite_weights w -> 1 <= weight w 4 <= 10 ->
  nextDifficulty w (Fin d) (Fin g)
  = Fin (Rmax 1 (Rmin 10
      (weight w 7 * weight w 4
       + (1 - weight w 7) * (d - weight w 6 * (g - 3))))).
Proof.
  intros Hw H4. rewrite nextDifficulty_Fin by assumption.
  replace (weight w 4 + (3 - 3) * weight w 5) with (weight w 4) by ring.
  now rewrite (clamp_id (weight w 4)).
Qed.

(** The difficulty update is monotone on weights with [w[7] <= 1] and
    [w[6] >= 0]. *)
Lemma nextDifficulty_order (w : list value) (d1 d2 g1 g2 : R) :
  finite_weights w -> weight w 7 <= 1 -> 0 <= weight w 6 ->
  d1 <= d2 -> g1 <= g2 ->
  exists a b c : R,
    nextDifficulty w (Fin d1) (Fin g2) = Fin a /\
    nextDifficulty w (Fin d2) (Fin g2) = Fin b /\
    nextDifficulty w (Fin d2) (Fin g1) = Fin c /\
    a <= b /\ b <= c.
Proof.
  intros Hw H7 H6 Hd Hg.
  do 3 eexists.
  split; [now apply nextDifficulty_Fin |].
  split; [now apply nextDifficulty_Fin |].
  split; [now apply nextDifficulty_Fin |].
  assert (Hk : 0 <= 1 - weight w 7) by lra.
  assert (Hgg : weight w 6 * (g1 - 3) <= weight w 6 * (g2 - 3))
    by (apply Rmult_le_compat_l; lra).
  split; apply clamp_monotone; apply Rplus_le_compat_l;
    apply Rmult_le_compat_l; lra.
Qed.

Lemma weights_DEFAULT_W_67 :
  weight DEFAULT_W 7 <= 1 /\ 0 <= weight DEFAULT_W 6.
Proof. unfold weight; simpl. lra. Qed.

(** X7. With the reference weights the new difficulty never falls when
    the old difficulty rises, and never rises when the grade rises: a
    harder card stays at least as hard, and a better grade never makes
    the card harder than a worse grade would. *)
Theorem nextDifficulty_monotone (d1 d2 g1 g2 : R) :
  d1 <= d2 -> g1 <= g2 ->
  exists a b c : R,
    nextDifficulty DEFAULT_W (Fin d1) (Fin g2) = Fin a /\
    nextDifficulty DEFAULT_W (Fin d2) (Fin g2) = Fin b /\
    nextDifficulty DEFAULT_W (Fin d2) (Fin g1) = Fin c /\
    a <= b /\ b <= c.
Proof.
  intros Hd Hg.
  apply nextDifficulty_order;
    [exact finite_weights_DEFAULT_W | apply weights_DEFAULT_W_67
    | apply weights_DEFAULT_W_67 | exact Hd | exact Hg].
Qed.

Lemma nextDifficulty_monotone_witness :
  exists a b c : R,
    nextDifficulty DEFAULT_W (Fin 3) (Fin 4) = Fin a /\
    nextDifficulty DEFAULT_W (Fin 7) (Fin 4) = Fin b /\
    nextDifficulty DEFAULT_W (Fin 7) (Fin 1) = Fin c /\
    a <= b /\ b <= c.
Proof.
  apply nextDifficulty_monotone; lra.
Defined.

(** X8. With the reference weights, grading [GOOD] moves a difficulty
    [d] in [1, 10] toward the baseline 4.93 and never past it: the new
    difficulty lies between [d] and 4.93, so the baseline itself stays
    where it is. *)
Theorem nextDifficulty_GOOD_reverts (d : R) :
  1 <= d <= 10 ->
  exists d' : R,
    nextDifficulty DEFAULT_W (Fin d) Grade.GOOD = Fin d' /\
    Rmin d 4.93 <= d' <= Rmax d 4.93.
Proof.
  intros Hd. unfold Grade.GOOD.
  rewrite nextDifficulty_baseline;
    [| exact finite_weights_DEFAULT_W | unfold weight; simpl; lra].
  eexists. split; [reflexivity |].
  unfold weight; simpl.
  replace (0.01 * 4.93 + (1 - 0.01) * (d - 0.86 * (3 - 3)))
    with (0.0493 + 0.99 * d) by lra.
  rewrite clamp_id by lra.
  unfold Rmin, Rmax. destruct (Rle_dec d 4.93); lra.
Qed.

Lemma nextDifficulty_GOOD_reverts_witness :
  exists d' : R,
    nextDifficulty DEFAULT_W (Fin 8) Grade.GOOD = Fin d' /\
    Rmin 8 4.93 <= d' <= Rmax 8 4.93.
Proof.
  apply nextDifficulty_GOOD_reverts; lra.
Defined.

Lemma initialStability_lookup_witness :
  initialStability DEFAULT_W (Fin 5) = Fin 4.93 /\
  initialStability DEFAULT_W (Fin 2.5) = Undefined.
Proof.
  split.
  - apply (proj1 (initialStability_lookup DEFAULT_W) 5%Z). simpl. lia.
  - apply (proj2 (initialStability_lookup DEFAULT_W)). left.
    intros z Hz.
    assert (H : IZR 5 = IZR (2 * z)) by (rewrite mult_IZR; lra).
    apply eq_IZR in H. lia.
Defined.

(* ================================================================== *)
(** * Cards stay within their ranges *)
(* ================================================================== *)

Lemma retrievability_unit (t s : R) :
  0 <= t -> 0 < s ->
  exists r : R, retrievability (Fin t) (Fin s) = Fin r /\ 0 < r <= 1.
Proof.
  intros Ht Hs. pose proof (retrievability_base t s Ht Hs) as Hb.
  eexists. split; [apply retrievability_Fin; lra |].
  split; [apply Rpower_pos |].
  destruct Hb as [Hb | <-].
  - left. now apply Rpower_neg_half_below_1.
  - rewrite Rpower_base_1. lra.
Qed.

Lemma nextInterval_unit (r s : R) :
  0 < r <= 1 -> 0 < s ->
  exists i : R, nextInterval (Fin r) (Fin s) = Fin i /\ 0 <= i.
Proof.
  intros Hr Hs. eexists. split; [apply nextInterval_formula; lra |].
  pose proof (inv_square_ge_1 r Hr) as H1.
  assert (Hk : 0 < s / (19 / 81)) by (apply Rdiv_lt_0_compat; lra).
  apply Rmult_le_pos; lra.
Qed.

Lemma nextDifficulty_range (w : list value) (d : R) (g : value) :
  finite_weights w -> is_grade g ->
  exists d' : R, nextDifficulty w (Fin d) g = Fin d' /\ 1 <= d' <= 10.
Proof.
  intros Hw Hg. assert (Hx : exists x : R, g = Fin x).
  { destruct Hg as [-> | [-> | [-> | ->]]]; eexists; reflexivity. }
  destruct Hx as [x ->]. eexists.
  split; [now apply nextDifficulty_Fin | apply clamp_range].
Qed.

(** The new stability of a graded card on the reference weights. *)
Lemma gradeCard_stability_positive (rate : value) (d s t : R) (i g : value) :
  0 < s -> 0 <= t -> is_grade g ->
  exists d' s' : R,
    Card.D (gradeCard DEFAULT_W rate (Card.mk (Fin d) (Fin s) i) (Fin t) g)
    = Fin d' /\
    Card.S (gradeCard DEFAULT_W rate (Card.mk (Fin d) (Fin s) i) (Fin t) g)
    = Fin s' /\
    1 <= d' <= 10 /\ 0 < s'.
Proof.
  intros Hs Ht Hg.
  destruct (retrievability_unit t s Ht Hs) as (r & Er & Hr).
  destruct (nextDifficulty_range DEFAULT_W d g finite_weights_DEFAULT_W Hg)
    as (d' & Ed & Hd).
  unfold gradeCard; cbn [Card.S Card.D]. rewrite Er, Ed.
  exists d'.
  apply is_grade_cases in Hg. destruct Hg as [-> | Hg].
  - change (Grade.AGAIN === Grade.AGAIN)%js with (Fin 1 === Fin 1)%js.
    rewrite strict_eq_Fin_true by reflexivity.
    destruct (forgetting_reference d' s r Hd Hs) as (s' & Es & Hs').
    exists s'. auto.
  - rewrite (recall_grade_not_AGAIN g Hg).
    destruct (recall_reference d' s r g Hd Hs Hr Hg) as (s' & Es & Hs').
    exists s'. repeat split; auto; lra.
Qed.

Lemma gradeCard_domain (rate d s t : R) (i g : value) :
  0 < rate <= 1 -> 0 < s -> 0 <= t -> is_grade g ->
  in_domain (gradeCard DEFAULT_W (Fin rate) (Card.mk (Fin d) (Fin s) i)
               (Fin t) g).
Proof.
  intros Hrate Hs Ht Hg.
  destruct (gradeCard_stability_positive (Fin rate) d s t i g Hs Ht Hg)
    as (d' & s' & Ed & Es & Hd & Hs').
  destruct (nextInterval_unit rate s' Hrate Hs') as (i' & Ei & Hi).
  exists d', s', i'. repeat split; try lra.
  assert (EI : Card.I (gradeCard DEFAULT_W (Fin rate)
                         (Card.mk (Fin d) (Fin s) i) (Fin t) g)
               = Fin i').
  { rewrite <- Ei, <- Es. reflexivity. }
  destruct (gradeCard DEFAULT_W (Fin rate) (Card.mk (Fin d) (Fin s) i)
              (Fin t) g) as [cd cs ci].
  cbn [Card.D Card.S Card.I] in *. now subst.
Qed.

(** X9. Grading keeps a card within its ranges.  On the reference
    weights and a requested retention from 0.01 to 1, a card with a
    finite difficulty and a stability between a millionth of a day and a
    million days, graded with any of the four grades after [t >= 0] days,
    comes back with a difficulty in [1, 10], a positive stability and a
    non-negative interval. *)
Theorem gradeCard_keeps_domain (rate d s t : R) (i g : value) :
  0.01 <= rate <= 1 -> 0.000001 <= s <= 1000000 -> 0 <= t -> is_grade g ->
  in_domain (gradeCard DEFAULT_W (Fin rate) (Card.mk (Fin d) (Fin s) i)
               (Fin t) g).
Proof.
  intros Hrate Hs Ht Hg. apply gradeCard_domain; (lra || assumption).
Qed.

Lemma is_grade_AGAIN : is_grade Grade.AGAIN.
Proof. unfold is_grade. tauto. Qed.

Lemma is_grade_GOOD : is_grade Grade.GOOD.
Proof. unfold is_grade. tauto. Qed.

Lemma gradeCard_keeps_domain_witness :
  in_domain (gradeCard DEFAULT_W (Fin 0.9) (Card.mk (Fin 5) (Fin 2) NaN)
               (Fin 30) Grade.AGAIN).
Proof.
  apply gradeCard_keeps_domain; [lra | lra | lra | exact is_grade_AGAIN].
Defined.

Lemma initialStability_reference (g : value) :
  is_grade g ->
  exists s : R, initialStability DEFAULT_W g = Fin s /\ 0 < s.
Proof.
  intros [-> | [-> | [-> | ->]]];
    unfold initialStability, Grade.AGAIN, Grade.HARD, Grade.GOOD, Grade.EASY;
    rewrite sub_Fin.
  - replace (1 - 1) with (IZR 0) by lra. rewrite index_IZR by lia.
    eexists. split; [reflexivity | lra].
  - replace (2 - 1) with (IZR 1) by lra. rewrite index_IZR by lia.
    eexists. split; [reflexivity | lra].
  - replace (3 - 1) with (IZR 2) by lra. rewrite index_IZR by lia.
    eexists. split; [reflexivity | lra].
  - replace (4 - 1) with (IZR 3) by lra. rewrite index_IZR by lia.
    eexists. split; [reflexivity | lra].
Qed.

Lemma newCard_domain (rate : R) (g : value) :
  0 < rate <= 1 -> is_grade g ->
  in_domain (newCard DEFAULT_W (Fin rate) g).
Proof.
  intros Hrate Hg.
  destruct (initialStability_reference g Hg) as (s & Es & Hs).
  destruct (nextInterval_unit rate s Hrate Hs) as (i & Ei & Hi).
  assert (Hd : exists d : R,
            initialDifficulty DEFAULT_W g = Fin d /\ 1 <= d <= 10).
  { destruct Hg as [-> | [-> | [-> | ->]]]; eexists;
      (split; [apply initialDifficulty_Fin; exact finite_weights_DEFAULT_W
              | apply clamp_range]). }
  destruct Hd as (d & Ed & Hd).
  exists d, s, i. repeat split; try lra.
  unfold newCard. now rewrite Ed, Es, Ei.
Qed.

(** X10. A new card is within its ranges: on the reference weights and
    a requested retention from 0.01 to 1, [newCard] of any of the four
    grades has a difficulty in [1, 10], a positive stability and a
    non-negative interval. *)
Theorem newCard_in_domain (rate : R) (g : value) :
  0.01 <= rate <= 1 -> is_grade g ->
  in_domain (newCard DEFAULT_W (Fin rate) g).
Proof.
  intros Hrate Hg. apply newCard_domain; (lra || assumption).
Qed.

Lemma newCard_in_domain_witness :
  in_domain (newCard DEFAULT_W (Fin 0.85) Grade.AGAIN).
Proof.
  apply newCard_in_domain; [lra | exact is_grade_AGAIN].
Defined.

(* ================================================================== *)
(** * Reviews on schedule *)
(* ================================================================== *)

(** In exact arithmetic a card is due exactly when its retrievability
    has fallen to the requested retention. *)
Lemma due_at_retention (rate d s t : R) (i g : value) :
  0 < rate <= 1 -> 0 < s -> 0 <= t -> is_grade g ->
  retrievability (Card.I (newCard DEFAULT_W (Fin rate) g))
                 (Card.S (newCard DEFAULT_W (Fin rate) g))
  = Fin rate /\
  retrievability
    (Card.I (gradeCard DEFAULT_W (Fin rate) (Card.mk (Fin d) (Fin s) i)
               (Fin t) g))
    (Card.S (gradeCard DEFAULT_W (Fin rate) (Card.mk (Fin d) (Fin s) i)
               (Fin t) g))
  = Fin rate.
Proof.
  intros Hrate Hs Ht Hg. split.
  - destruct (initialStability_reference g Hg) as (s0 & Es & Hs0).
    unfold newCard; cbn [Card.S Card.I]. rewrite Es.
    apply retrievability_nextInterval; lra.
  - destruct (gradeCard_stability_positive (Fin rate) d s t i g Hs Ht Hg)
      as (d' & s' & _ & Es & _ & Hs').
    assert (EI : Card.I (gradeCard DEFAULT_W (Fin rate)
                           (Card.mk (Fin d) (Fin s) i) (Fin t) g)
                 = nextInterval (Fin rate)
                     (Card.S (gradeCard DEFAULT_W (Fin rate)
                                (Card.mk (Fin d) (Fin s) i) (Fin t) g)))
      by reflexivity.
    rewrite EI, Es. apply retrievability_nextInterval; lra.
Qed.

Lemma approx_refl (x eps : R) : 0 < eps -> approx (Fin x) x eps.
Proof.
  intros H. exists x. split; [reflexivity |].
  replace (x - x) with 0 by ring. now rewrite Rabs_R0.
Qed.

Lemma close_refl (x : R) : close (Fin x) (Fin x).
Proof.
  exists x, x. repeat split.
  replace (x - x) with 0 by ring. rewrite Rabs_R0.
  apply Rmult_le_pos; [lra | apply Rabs_pos].
Qed.

(** X11. Every card the deck hands out is due when its retrievability
    has fallen to the requested retention.  On the reference weights and
    a requested retention [rate] from 0.01 to 1: for a new card of any of
    the four grades, and for a card with a finite difficulty and a
    stability between a millionth of a day and a million days graded with
    any of the four grades after [t >= 0] days, the retrievability of the
    returned card after its own interval is [rate] to within a
    billionth. *)
Theorem cards_due_at_retention (rate d s t : R) (i g : value) :
  0.01 <= rate <= 1 -> 0.000001 <= s <= 1000000 -> 0 <= t -> is_grade g ->
  approx
    (retrievability (Card.I (newCard DEFAULT_W (Fin rate) g))
                    (Card.S (newCard DEFAULT_W (Fin rate) g)))
    rate 0.000000001 /\
  approx
    (retrievability
       (Card.I (gradeCard DEFAULT_W (Fin rate) (Card.mk (Fin d) (Fin s) i)
                  (Fin t) g))
       (Card.S (gradeCard DEFAULT_W (Fin rate) (Card.mk (Fin d) (Fin s) i)
                  (Fin t) g)))
    rate 0.000000001.
Proof.
  intros Hrate Hs Ht Hg.
  destruct (due_at_retention rate d s t i g) as [E1 E2];
    [lra | lra | lra | assumption |].
  rewrite E1, E2. split; apply approx_refl; lra.
Qed.

Lemma cards_due_at_retention_witness :
  approx
    (retrievability (Card.I (newCard DEFAULT_W (Fin 0.85) Grade.GOOD))
                    (Card.S (newCard DEFAULT_W (Fin 0.85) Grade.GOOD)))
    0.85 0.000000001 /\
  approx
    (retrievability
       (Card.I (gradeCard DEFAULT_W (Fin 0.85) (Card.mk (Fin 5) (Fin 2) NaN)
                  (Fin 7) Grade.GOOD))
       (Card.S (gradeCard DEFAULT_W (Fin 0.85) (Card.mk (Fin 5) (Fin 2) NaN)
                  (Fin 7) Grade.GOOD)))
    0.85 0.000000001.
Proof.
  apply cards_due_at_retention; [lra | lra | lra | exact is_grade_GOOD].
Defined.

(** In exact arithmetic the draft's [gradeCard] is the final one for a
    review made on schedule. *)
Lemma draft_gradeCard_exact (rate s : R) (d g : value) :
  0 < rate <= 1 -> 0 < s ->
  Draft.gradeCard (Draft.createDeck (Fin rate)) g
    (Card.mk d (Fin s) (nextInterval (Fin rate) (Fin s)))
  = gradeCard DEFAULT_W (Fin rate)
      (Card.mk d (Fin s) (nextInterval (Fin rate) (Fin s)))
      (nextInterval (Fin rate) (Fin s)) g.
Proof.
  intros Hrate Hs.
  unfold gradeCard, Draft.createDeck; cbn [Draft.gradeCard Card.S Card.D].
  rewrite retrievability_nextInterval by lra.
  change Draft.w with DEFAULT_W.
  now destruct (g === Grade.AGAIN)%js.
Qed.

(** X12. The draft's [gradeCard], which takes no elapsed days and feeds
    the requested retention to the stability formulas, computes what the
    final [gradeCard] computes for a review made exactly on schedule.
    For a requested retention [rate] from 0.01 to 1, a card with a finite
    difficulty, a stability between a millionth of a day and a million
    days and the interval [nextInterval(rate, s)], and any of the four
    grades: the draft's result and the final one, taken on the reference
    weights with the card's interval as the elapsed days, have the same
    difficulty, and their stabilities and intervals agree to within a
    billionth of their size. *)
Theorem draft_gradeCard_on_schedule (rate d s : R) (g : value) :
  0.01 <= rate <= 1 -> 0.000001 <= s <= 1000000 -> is_grade g ->
  let card := Card.mk (Fin d) (Fin s) (nextInterval (Fin rate) (Fin s)) in
  let draft := Draft.gradeCard (Draft.createDeck (Fin rate)) g card in
  let final :=
    gradeCard DEFAULT_W (Fin rate) card (nextInterval (Fin rate) (Fin s)) g in
  Card.D draft = Card.D final /\
  close (Card.S draft) (Card.S final) /\
  close (Card.I draft) (Card.I final).
Proof.
  intros Hrate Hs Hg. cbv zeta.
  rewrite draft_gradeCard_exact by lra.
  destruct (nextInterval_unit rate s) as (t & Et & Ht); [lra | lra |].
  rewrite Et.
  destruct (gradeCard_domain rate d s t (Fin t) g) as (d' & s' & i' & E & _);
    [lra | lra | lra | assumption |].
  rewrite E. cbn [Card.D Card.S Card.I].
  split; [reflexivity |]. split; apply close_refl.
Qed.

Lemma draft_gradeCard_on_schedule_witness :
  let card := Card.mk (Fin 5) (Fin 2) (nextInterval (Fin 0.9) (Fin 2)) in
  let draft := Draft.gradeCard (Draft.createDeck (Fin 0.9)) Grade.AGAIN card in
  let final :=
    gradeCard DEFAULT_W (Fin 0.9) card (nextInterval (Fin 0.9) (Fin 2))
      Grade.AGAIN in
  Card.D draft = Card.D final /\
  close (Card.S draft) (Card.S final) /\
  close (Card.I draft) (Card.I final).
Proof.
  apply draft_gradeCard_on_schedule; [lra | lra | exact is_grade_AGAIN].
Defined.

(* ================================================================== *)
(** * How the new stability compares *)
(* ================================================================== *)

Lemma ln_le_minus_1 (x : R) : 0 < x -> ln x <= x - 1.
Proof.
  intros Hx. pose proof (exp_ineq1_le (ln x)) as H.
  rewrite exp_ln in H by assumption. lra.
Qed.

(** Bernoulli's inequality for an exponent between 0 and 1. *)
Lemma Rpower_Bernoulli (u a : R) :
  0 < u -> 0 <= a <= 1 -> Rpower u a <= 1 + a * (u - 1).
Proof.
  intros Hu Ha.
  set (m := 1 + a * (u - 1)).
  assert (Hm : 0 < m) by (unfold m; nra).
  assert (Hum : 0 < u / m) by (apply Rdiv_lt_0_compat; lra).
  assert (Him : 0 < / m) by (now apply Rinv_0_lt_compat).
  pose proof (ln_le_minus_1 (u / m) Hum) as H1.
  pose proof (ln_le_minus_1 (/ m) Him) as H2.
  unfold Rdiv in H1 at 1. rewrite ln_mult, ln_Rinv in H1 by lra.
  rewrite ln_Rinv in H2 by lra.
  assert (Hz : a * (u / m - 1) + (1 - a) * (/ m - 1) = 0).
  { unfold m. field. fold m. lra. }
  assert (Hln : a * ln u <= ln m) by nra.
  unfold Rpower. rewrite <- (exp_ln m Hm). now apply exp_le_mono.
Qed.

Lemma Rpower_neg_le_1 (d y : R) : 1 <= d -> 0 <= y -> Rpower d (- y) <= 1.
Proof.
  intros Hd Hy. rewrite <- (Rpower_O d) by lra.
  apply Rle_Rpower; lra.
Qed.

Lemma forgetting_below_stability (d s r : R) :
  1 <= d <= 10 -> 0 < s -> 0.8 <= r <= 1 ->
  exists s' : R,
    nextStabilityAfterForgetting DEFAULT_W (Fin d) (Fin s) (Fin r) = Fin s' /\
    0 < s' < s.
Proof.
  intros Hd Hs Hr.
  destruct (forgetting_reference d s r Hd Hs) as (s' & E & Hpos).
  exists s'. split; [exact E |]. split; [exact Hpos |].
  rewrite nextStabilityAfterForgetting_Fin in E
    by (try exact finite_weights_DEFAULT_W; lra).
  injection E as <-. unfold weight; simpl nth; cbv iota.
  pose proof (Rpower_neg_le_1 d 0.05 (proj1 Hd)) as Hp.
  assert (Hp0 : 0 < Rpower d (- 0.05)) by apply Rpower_pos.
  replace (Ropp 0.05) with (-0.05) in * by lra.
  assert (Hb : Rpower (s + 1) 0.34 - 1 <= 0.34 * s).
  { pose proof (Rpower_Bernoulli (s + 1) 0.34) as H. lra. }
  assert (Hb0 : 0 < Rpower (s + 1) 0.34 - 1).
  { assert (H : Rpower (s + 1) 0 < Rpower (s + 1) 0.34)
      by (apply Rpower_lt; lra).
    rewrite Rpower_O in H by lra. lra. }
  assert (He : exp ((1 - r) * 1.26) <= 1.2867).
  { apply Rle_trans with (exp 0.252); [apply exp_le_mono; lra |].
    apply exp_upper; unfold exp_poly7; lra. }
  pose proof (exp_pos ((1 - r) * 1.26)) as He0.
  assert (H1 : 2.18 * Rpower d (-0.05) <= 2.18) by lra.
  assert (H2 : 2.18 * Rpower d (-0.05) * (Rpower (s + 1) 0.34 - 1)
               <= 2.18 * (0.34 * s)).
  { apply Rmult_le_compat; lra. }
  assert (H3 : 2.18 * Rpower d (-0.05) * (Rpower (s + 1) 0.34 - 1)
               * exp ((1 - r) * 1.26)
               <= 2.18 * (0.34 * s) * 1.2867).
  { apply Rmult_le_compat; try lra.
    apply Rmult_le_pos; lra. }
  lra.
Qed.

(** X13. A lapse lowers the stability when the card was not long
    overdue: on the reference weights, for a difficulty in [1, 10], a
    stability [s] of at least a millionth of a day and a retrievability
    [r] of at least 0.8, the forgetting transition returns a positive
    stability strictly below [s]. *)
Theorem forgetting_lowers_stability (d s r : R) :
  1 <= d <= 10 -> 0.000001 <= s -> 0.8 <= r <= 1 ->
  exists s' : R,
    nextStabilityAfterForgetting DEFAULT_W (Fin d) (Fin s) (Fin r) = Fin s' /\
    0 < s' < s.
Proof.
  intros Hd Hs Hr. apply forgetting_below_stability; lra.
Qed.

Lemma forgetting_lowers_stability_witness :
  exists s' : R,
    nextStabilityAfterForgetting DEFAULT_W (Fin 5) (Fin 60) (Fin 0.9) = Fin s' /\
    0 < s' < 60.
Proof.
  apply forgetting_lowers_stability; lra.
Defined.

(** The recall formula on the reference weights, grade by grade. *)
Lemma recall_DEFAULT_W (d' s r h e : R) (g : value) :
  0 < s ->
  (g = Grade.HARD /\ h = 0.29 /\ e = 1) \/
  (g = Grade.GOOD /\ h = 1 /\ e = 1) \/
  (g = Grade.EASY /\ h = 1 /\ e = 2.61) ->
  nextStabilityAfterRecall DEFAULT_W (Fin d') (Fin s) (Fin r) g
  = Fin (s * (1 + exp 1.49 * Rpower s (-0.14)
                  * (exp ((1 - r) * 0.94) - 1) * ((11 - d') * (h * e)))).
Proof.
  intros Hs Hg.
  destruct (nextStabilityAfterRecall_Fin DEFAULT_W d' s r g
              finite_weights_DEFAULT_W Hs) as (h0 & e0 & E & HH & HG & HE).
  rewrite E. f_equal. unfold weight; simpl nth; cbv iota.
  replace (Ropp 0.14) with (-0.14) by lra.
  assert (Ehe : h0 = h /\ e0 = e).
  { destruct Hg as [(Hg & -> & ->) | [(Hg & -> & ->) | (Hg & -> & ->)]].
    - destruct (HH Hg) as [-> ->]. unfold weight; simpl. split; lra.
    - destruct (HG Hg) as [-> ->]. split; lra.
    - destruct (HE Hg) as [-> ->]. unfold weight; simpl. split; lra. }
  destruct Ehe as [-> ->]. ring.
Qed.

(** The difficulty the three recall grades lead to, in order. *)
Lemma nextDifficulty_recall_order (d : R) :
  exists dH dG dE : R,
    nextDifficulty DEFAULT_W (Fin d) Grade.HARD = Fin dH /\
    nextDifficulty DEFAULT_W (Fin d) Grade.GOOD = Fin dG /\
    nextDifficulty DEFAULT_W (Fin d) Grade.EASY = Fin dE /\
    1 <= dE /\ dE <= dG /\ dG <= dH /\ dH <= 10.
Proof.
  do 3 eexists. unfold Grade.HARD, Grade.GOOD, Grade.EASY.
  rewrite !nextDifficulty_Fin by exact finite_weights_DEFAULT_W.
  repeat split; try reflexivity.
  - apply clamp_range.
  - apply clamp_monotone. unfold weight; simpl. lra.
  - apply clamp_monotone. unfold weight; simpl. lra.
  - apply clamp_range.
Qed.

(** The factor of the recall growth that does not depend on the grade. *)
Lemma recall_factor_nonneg (s r : R) :
  r <= 1 ->
  0 <= exp 1.49 * Rpower s (-0.14) * (exp ((1 - r) * 0.94) - 1).
Proof.
  intros Hr.
  assert (1 <= exp ((1 - r) * 0.94)) by (apply exp_ge_1; lra).
  apply Rmult_le_pos; [| lra].
  apply Rmult_le_pos; left; [apply exp_pos | apply Rpower_pos].
Qed.

(** Retrievability of at least 0.8 for a review no later than twice the
    stability. *)
Lemma retrievability_within_twice (t s : R) :
  0 <= t -> 0 < s -> t <= 2 * s ->
  exists r : R, retrievability (Fin t) (Fin s) = Fin r /\ 0.8 <= r <= 1.
Proof.
  intros Ht Hs Hts.
  destruct (retrievability_unit t s Ht Hs) as (r & Er & Hr).
  exists r. split; [exact Er |]. split; [| lra].
  rewrite retrievability_Fin in Er
    by (pose proof (retrievability_base t s Ht Hs); lra).
  injection Er as <-.
  assert (Hq : t / s <= 2).
  { apply Rmult_le_reg_r with s; [lra |].
    unfold Rdiv. rewrite Rmult_assoc, Rinv_l by lra. lra. }
  pose proof (retrievability_base t s Ht Hs) as Hb.
  assert (E8 : Rpower (1.5625) (-0.5) = 0.8).
  { replace 1.5625 with (Rpower 0.8 (-2))
      by (rewrite Rpower_neg2 by lra; lra).
    rewrite Rpower_mult. replace (-2 * -0.5) with 1 by lra.
    apply Rpower_1. lra. }
  destruct (Req_dec_T (1 + 19 / 81 * (t / s)) 1.5625) as [-> | Hne];
    [lra |].
  left. rewrite <- E8. apply Rpower_neg_half_decreasing; lra.
Qed.

Lemma recall_grade_he (g : value) :
  is_recall_grade g ->
  exists h e : R,
    0 < h * e /\
    ((g = Grade.HARD /\ h = 0.29 /\ e = 1) \/
     (g = Grade.GOOD /\ h = 1 /\ e = 1) \/
     (g = Grade.EASY /\ h = 1 /\ e = 2.61)).
Proof.
  intros [-> | [-> | ->]].
  - exists 0.29, 1. split; [lra | tauto].
  - exists 1, 1. split; [lra | tauto].
  - exists 1, 2.61. split; [lra | tauto].
Qed.

(** X14. A better grade never gives a shorter memory.  On the reference
    weights, a card with a finite difficulty and a stability [s] between
    a millionth of a day and a million days, graded after [t] days,
    [0 <= t <= 2 * s], comes back with stabilities ordered as the grades
    are: the one for [AGAIN] is strictly below [s], and
    [s <= HARD <= GOOD <= EASY]. *)
Theorem stability_ordered_by_grade (rate : value) (d s t : R) (i : value) :
  0.000001 <= s <= 1000000 -> 0 <= t -> t <= 2 * s ->
  exists sA sH sG sE : R,
    Card.S (gradeCard DEFAULT_W rate (Card.mk (Fin d) (Fin s) i) (Fin t)
              Grade.AGAIN) = Fin sA /\
    Card.S (gradeCard DEFAULT_W rate (Card.mk (Fin d) (Fin s) i) (Fin t)
              Grade.HARD) = Fin sH /\
    Card.S (gradeCard DEFAULT_W rate (Card.mk (Fin d) (Fin s) i) (Fin t)
              Grade.GOOD) = Fin sG /\
    Card.S (gradeCard DEFAULT_W rate (Card.mk (Fin d) (Fin s) i) (Fin t)
              Grade.EASY) = Fin sE /\
    sA < s /\ s <= sH /\ sH <= sG /\ sG <= sE.
Proof.
  intros Hs' Ht Hts.
  assert (Hs : 0 < s) by lra.
  destruct (retrievability_within_twice t s Ht Hs Hts) as (r & Er & Hr).
  destruct (nextDifficulty_recall_order d)
    as (dH & dG & dE & EH & EG & EE & H1 & H2 & H3 & H4).
  destruct (nextDifficulty_range DEFAULT_W d Grade.AGAIN
              finite_weights_DEFAULT_W is_grade_AGAIN) as (dA & EA & HdA).
  destruct (forgetting_below_stability dA s r HdA Hs Hr) as (sA & EsA & HsA).
  pose proof (recall_factor_nonneg s r (proj2 Hr)) as HM.
  set (M := exp 1.49 * Rpower s (-0.14) * (exp ((1 - r) * 0.94) - 1)) in *.
  exists sA,
    (s * (1 + M * ((11 - dH) * (0.29 * 1)))),
    (s * (1 + M * ((11 - dG) * (1 * 1)))),
    (s * (1 + M * ((11 - dE) * (1 * 2.61)))).
  unfold gradeCard; cbn [Card.S Card.D].
  rewrite Er, EA, EH, EG, EE.
  change (Grade.AGAIN === Grade.AGAIN)%js with (Fin 1 === Fin 1)%js.
  rewrite strict_eq_Fin_true by reflexivity.
  rewrite !recall_grade_not_AGAIN by (unfold is_recall_grade; tauto).
  split; [exact EsA |].
  split; [apply recall_DEFAULT_W; [exact Hs | tauto] |].
  split; [apply recall_DEFAULT_W; [exact Hs | tauto] |].
  split; [apply recall_DEFAULT_W; [exact Hs | tauto] |].
  assert (KH : 0 <= M * ((11 - dH) * (0.29 * 1)))
    by (apply Rmult_le_pos; lra).
  assert (KHG : M * ((11 - dH) * (0.29 * 1)) <= M * ((11 - dG) * (1 * 1)))
    by (apply Rmult_le_compat_l; lra).
  assert (KGE : M * ((11 - dG) * (1 * 1)) <= M * ((11 - dE) * (1 * 2.61)))
    by (apply Rmult_le_compat_l; lra).
  repeat split; try lra; nra.
Qed.

Lemma stability_ordered_by_grade_witness :
  exists sA sH sG sE : R,
    Card.S (gradeCard DEFAULT_W (Fin 0.9) (Card.mk (Fin 5) (Fin 2) NaN)
              (Fin 3) Grade.AGAIN) = Fin sA /\
    Card.S (gradeCard DEFAULT_W (Fin 0.9) (Card.mk (Fin 5) (Fin 2) NaN)
              (Fin 3) Grade.HARD) = Fin sH /\
    Card.S (gradeCard DEFAULT_W (Fin 0.9) (Card.mk (Fin 5) (Fin 2) NaN)
              (Fin 3) Grade.GOOD) = Fin sG /\
    Card.S (gradeCard DEFAULT_W (Fin 0.9) (Card.mk (Fin 5) (Fin 2) NaN)
              (Fin 3) Grade.EASY) = Fin sE /\
    sA < 2 /\ 2 <= sH /\ sH <= sG /\ sG <= sE.
Proof.
  apply stability_ordered_by_grade; lra.
Defined.

(** The later a successful review, the larger the new stability. *)
Lemma recall_delay_order (rate : value) (d s t1 t2 : R) (i g : value) :
  0 < s -> 0 <= t1 -> t1 < t2 -> is_recall_grade g ->
  exists s1 s2 : R,
    Card.S (gradeCard DEFAULT_W rate (Card.mk (Fin d) (Fin s) i) (Fin t1) g)
    = Fin s1 /\
    Card.S (gradeCard DEFAULT_W rate (Card.mk (Fin d) (Fin s) i) (Fin t2) g)
    = Fin s2 /\
    s1 < s2.
Proof.
  intros Hs Ht1 Ht Hg.
  pose proof (retrievability_base t1 s Ht1 Hs) as B1.
  assert (B2 : 1 <= 1 + 19 / 81 * (t2 / s))
    by (apply retrievability_base; lra).
  assert (Hg' : is_grade g) by (apply is_grade_cases; now right).
  destruct (nextDifficulty_range DEFAULT_W d g finite_weights_DEFAULT_W Hg')
    as (d' & Ed & Hd).
  destruct (recall_grade_he g Hg) as (h & e & Hhe & Hcase).
  unfold gradeCard; cbn [Card.S Card.D].
  rewrite (recall_grade_not_AGAIN g Hg), Ed.
  rewrite !retrievability_Fin by lra.
  rewrite !(recall_DEFAULT_W d' s _ h e g Hs Hcase).
  do 2 eexists. split; [reflexivity |]. split; [reflexivity |].
  assert (Hr : Rpower (1 + 19 / 81 * (t2 / s)) (-0.5)
               < Rpower (1 + 19 / 81 * (t1 / s)) (-0.5)).
  { apply Rpower_neg_half_decreasing; [lra |].
    assert (t1 / s < t2 / s); [| lra].
    apply Rmult_lt_compat_r; [now apply Rinv_0_lt_compat | lra]. }
  set (r1 := Rpower (1 + 19 / 81 * (t1 / s)) (-0.5)) in *.
  set (r2 := Rpower (1 + 19 / 81 * (t2 / s)) (-0.5)) in *.
  assert (He : exp ((1 - r1) * 0.94) < exp ((1 - r2) * 0.94))
    by (apply exp_increasing; lra).
  assert (HPQ : 0 < exp 1.49 * Rpower s (-0.14))
    by (apply Rmult_lt_0_compat; [apply exp_pos | apply Rpower_pos]).
  assert (Hk : 0 < (11 - d') * (h * e))
    by (apply Rmult_lt_0_compat; lra).
  apply Rmult_lt_compat_l; [exact Hs |].
  apply Rplus_lt_compat_l.
  apply Rmult_lt_compat_r; [exact Hk |].
  apply Rmult_lt_compat_l; [exact HPQ | lra].
Qed.

(** X15. The later a successful review, the larger the new stability.
    On the reference weights, for a card with a finite difficulty and a
    stability [s] between a millionth of a day and a million days, and a
    grade [HARD], [GOOD] or [EASY]: grading after [t2] days returns a
    strictly larger stability than grading after [t1] days when [t2] is
    later than [t1] by at least a thousandth of [s], and no later than a
    thousand times [s]. *)
Theorem recall_grows_with_delay (rate : value) (d s t1 t2 : R)
  (i g : value) :
  0.000001 <= s <= 1000000 ->
  0 <= t1 -> t1 + s / 1000 <= t2 -> t2 <= 1000 * s ->
  is_recall_grade g ->
  exists s1 s2 : R,
    Card.S (gradeCard DEFAULT_W rate (Card.mk (Fin d) (Fin s) i) (Fin t1) g)
    = Fin s1 /\
    Card.S (gradeCard DEFAULT_W rate (Card.mk (Fin d) (Fin s) i) (Fin t2) g)
    = Fin s2 /\
    s1 < s2.
Proof.
  intros Hs Ht1 Ht Ht2 Hg.
  apply recall_delay_order; (lra || assumption).
Qed.

Lemma recall_grows_with_delay_witness :
  exists s1 s2 : R,
    Card.S (gradeCard DEFAULT_W (Fin 0.9) (Card.mk (Fin 5) (Fin 2) NaN)
              (Fin 1) Grade.GOOD) = Fin s1 /\
    Card.S (gradeCard DEFAULT_W (Fin 0.9) (Card.mk (Fin 5) (Fin 2) NaN)
              (Fin 4) Grade.GOOD) = Fin s2 /\
    s1 < s2.
Proof.
  apply recall_grows_with_delay; try lra.
  unfold is_recall_grade. tauto.
Defined.

(* ================================================================== *)
(** * The draft's comparison helper and load-time checks *)
(* ================================================================== *)

Lemma compare_Fin (a b eps : R) (message : String.string) :
  Draft.compare (Fin a) (Fin b) (Fin eps) message
  = if Rlt_dec eps (Rabs (a - b)) then Throw message else Normal.
Proof.
  unfold Draft.compare. rewrite sub_Fin.
  unfold gt, lt, Math_abs; cbn [ToNumber].
  now destruct (Rlt_dec eps (Rabs (a - b))).
Qed.

Lemma compare_within (a b eps : R) (message : String.string) :
  Rabs (a - b) <= eps ->
  Draft.compare (Fin a) (Fin b) (Fin eps) message = Normal.
Proof.
  intros H. rewrite compare_Fin.
  destruct (Rlt_dec eps (Rabs (a - b))); [lra | reflexivity].
Qed.

Lemma sub_NaN (a b : value) :
  ToNumber a = NaN \/ ToNumber b = NaN -> (a - b)%js = NaN.
Proof.
  intros [H | H].
  - destruct a; try discriminate H; destruct b; reflexivity.
  - destruct b; try discriminate H; destruct a; reflexivity.
Qed.

(** X16. The draft's [compare] lets through two numbers that are within
    [epsilon] of each other, throws its message when they are at least
    twice a positive [epsilon] apart, and lets a [NaN] through: it never
    throws when [a], [b] or [epsilon] is [NaN] or [undefined]. *)
Theorem compare_behaviour :
  (forall (a b eps : R) (message : String.string),
     Rabs (a - b) <= eps ->
     Draft.compare (Fin a) (Fin b) (Fin eps) message = Normal) /\
  (forall (a b eps : R) (message : String.string),
     0 < eps -> 2 * eps <= Rabs (a - b) ->
     Draft.compare (Fin a) (Fin b) (Fin eps) message = Throw message) /\
  (forall (a b eps : value) (message : String.string),
     ToNumber a = NaN \/ ToNumber b = NaN \/ ToNumber eps = NaN ->
     Draft.compare a b eps message = Normal).
Proof.
  split; [| split].
  - intros a b eps message H. now apply compare_within.
  - intros a b eps message H0 H. rewrite compare_Fin.
    destruct (Rlt_dec eps (Rabs (a - b))); [reflexivity | lra].
  - intros a b eps message H. unfold Draft.compare, gt.
    assert (E : lt eps (Math_abs (a - b)%js) = false).
    { destruct H as [H | [H | H]].
      + rewrite sub_NaN by tauto. now destruct eps.
      + rewrite sub_NaN by tauto. now destruct eps.
      + destruct eps; try discriminate H; reflexivity. }
    now rewrite E.
Qed.

Lemma compare_behaviour_witness :
  Draft.compare (Fin 9.0979) (Fin 9.1) (Fin 0.1) String.EmptyString = Normal /\
  Draft.compare (Fin 1) (Fin 2) (Fin 0.5) String.EmptyString
  = Throw String.EmptyString /\
  Draft.compare NaN (Fin 2) (Fin 0.5) String.EmptyString = Normal.
Proof.
  destruct compare_behaviour as (H1 & H2 & H3).
  split; [| split].
  - apply H1. apply Rabs_le. lra.
  - apply H2; [lra |]. rewrite Rabs_left; lra.
  - apply H3. left. reflexivity.
Defined.

Lemma compare_same (a : R) (message : String.string) :
  Draft.compare (Fin a) (Fin a) (Fin 0.0) message = Normal.
Proof.
  apply compare_within.
  replace (a - a) with 0 by ring. rewrite Rabs_R0. lra.
Qed.

Lemma nextDifficulty_DEFAULT_W (d g x : R) :
  1 <= x <= 10 ->
  0.01 * 4.93 + (1 - 0.01) * (d - 0.86 * (g - 3)) = x ->
  nextDifficulty DEFAULT_W (Fin d) (Fin g) = Fin x.
Proof.
  intros Hx E.
  rewrite nextDifficulty_baseline
    by (try exact finite_weights_DEFAULT_W; unfold weight; simpl; lra).
  unfold weight; simpl nth; cbv iota. rewrite E. f_equal.
  now apply clamp_id.
Qed.

Lemma initialStability_AGAIN_DEFAULT_W :
  initialStability DEFAULT_W Grade.AGAIN = Fin 0.4.
Proof.
  unfold initialStability, Grade.AGAIN. rewrite sub_Fin.
  replace (1 - 1) with (IZR 0) by lra. now rewrite index_IZR by lia.
Qed.

Lemma initialStability_EASY_DEFAULT_W :
  initialStability DEFAULT_W Grade.EASY = Fin 5.8.
Proof.
  unfold initialStability, Grade.EASY. rewrite sub_Fin.
  replace (4 - 1) with (IZR 3) by lra. now rewrite index_IZR by lia.
Qed.

Lemma initialDifficulty_GOOD_DEFAULT_W :
  initialDifficulty DEFAULT_W Grade.GOOD = Fin 4.93.
Proof.
  unfold Grade.GOOD.
  rewrite initialDifficulty_Fin by exact finite_weights_DEFAULT_W.
  f_equal. unfold weight; simpl nth; cbv iota.
  replace (4.93 + (3 - 3) * 0.94) with 4.93 by lra.
  apply clamp_id. lra.
Qed.

Lemma draft_check_3 (message : String.string) :
  Draft.compare (initialStability Draft.w Grade.AGAIN)
    (Draft.w.[Fin 0])%js (Fin 0.0) message = Normal.
Proof.
  change Draft.w with DEFAULT_W.
  rewrite initialStability_AGAIN_DEFAULT_W, index_IZR by lia.
  apply compare_same.
Qed.

Lemma draft_check_4 (message : String.string) :
  Draft.compare (initialStability Draft.w Grade.EASY)
    (Draft.w.[Fin 3])%js (Fin 0.0) message = Normal.
Proof.
  change Draft.w with DEFAULT_W.
  rewrite initialStability_EASY_DEFAULT_W, index_IZR by lia.
  apply compare_same.
Qed.

Lemma draft_check_5 (message : String.string) :
  Draft.compare (initialDifficulty Draft.w Grade.GOOD)
    (Draft.w.[Fin 4])%js (Fin 0.0) message = Normal.
Proof.
  change Draft.w with DEFAULT_W.
  rewrite initialDifficulty_GOOD_DEFAULT_W, index_IZR by lia.
  apply compare_same.
Qed.

Lemma draft_check_6 (message : String.string) :
  Draft.compare (nextDifficulty Draft.w (Fin 10) Grade.EASY) (Fin 9.1)
    (Fin 0.1) message = Normal.
Proof.
  change Draft.w with DEFAULT_W. unfold Grade.EASY.
  rewrite (nextDifficulty_DEFAULT_W 10 4 9.0979) by lra.
  apply compare_within. apply Rabs_le. lra.
Qed.

Lemma draft_check_7 (message : String.string) :
  Draft.compare (nextDifficulty Draft.w (Fin 5) Grade.HARD) (Fin 5.85)
    (Fin 0.1) message = Normal.
Proof.
  change Draft.w with DEFAULT_W. unfold Grade.HARD.
  rewrite (nextDifficulty_DEFAULT_W 5 2 5.8507) by lra.
  apply compare_within. apply Rabs_le. lra.
Qed.

(** X17. The draft's load-time checks all pass: run in order, the seven
    calls of [compare] on the retrievability at [t = S], the interval at
    retention 0.9, the initial stabilities of [AGAIN] and [EASY], the
    initial difficulty of [GOOD] and the two entries of the difficulty
    table complete normally, so loading the draft throws nothing. *)
Theorem draft_checks_pass : Draft.checks = Normal.
Proof.
  unfold Draft.checks.
  rewrite retrievability_at_stability by lra.
  rewrite nextInterval_reference.
  rewrite compare_same.
  rewrite (compare_within 2 2 0.01) by (apply Rabs_le; lra).
  rewrite draft_check_3, draft_check_4, draft_check_5, draft_check_6,
    draft_check_7.
  reflexivity.
Qed.

(* ================================================================== *)
(** * The tabulated review sequence *)
(* ================================================================== *)

Lemma fold_forEach_step (deck : Deck.t) (gs : list value) (k : nat)
  (card : Card.t) (results : list Card.t) :
  (0 < k)%nat ->
  snd (fold_left (forEach_step deck) (combine gs (seq k (length gs)))
         (card, results))
  = results ++ on_schedule deck card gs.
Proof.
  revert k card results.
  induction gs as [| g gs IH]; intros k card results Hk.
  - simpl. now rewrite app_nil_r.
  - cbn [length seq combine fold_left forEach_step on_schedule].
    destruct (Nat.ltb_spec 0 k) as [_ | Hn]; [| lia].
    rewrite IH by lia. now rewrite <- app_assoc.
Qed.

Lemma tabulate_cons (deck : Deck.t) (g : value) (gs : list value) :
  tabulate deck (g :: gs)
  = Deck.newCard deck g :: on_schedule deck (Deck.newCard deck g) gs.
Proof.
  unfold tabulate.
  rewrite (index_IZR (g :: gs) 0) by lia.
  cbn [Z.to_nat nth length seq combine fold_left forEach_step Nat.ltb Nat.leb].
  now rewrite fold_forEach_step by lia.
Qed.

Lemma on_schedule_length (deck : Deck.t) (gs : list value) (card : Card.t) :
  length (on_schedule deck card gs) = length gs.
Proof.
  revert card. induction gs as [| g gs IH]; intros card; simpl;
    [reflexivity | now rewrite IH].
Qed.

(** X18. The loop of [test.ts] builds one row per rating: no row for no
    rating; otherwise the first row is [newCard] of the first rating,
    which is not graded again, and every later row is the card of the row
    before graded with the next rating, its own interval passed as the
    elapsed days. *)
Theorem tabulate_rows (deck : Deck.t) :
  tabulate deck [] = [] /\
  (forall (g : value) (gs : list value),
     tabulate deck (g :: gs)
     = Deck.newCard deck g :: on_schedule deck (Deck.newCard deck g) gs) /\
  (forall ratings : list value,
     length (tabulate deck ratings) = length ratings).
Proof.
  split; [reflexivity |]. split; [exact (tabulate_cons deck) |].
  intros [| g gs]; [reflexivity |].
  rewrite tabulate_cons. simpl. now rewrite on_schedule_length.
Qed.

(** A deck given a truthy rate and no array: the reference weights. *)
Lemma createDeck_rate (rate : R) :
  rate <> 0 ->
  createDeck (Some (DeckParams.mk (Fin rate) (Falsy falsy_undefined)))
  = {| Deck.newCard := newCard DEFAULT_W (Fin rate);
       Deck.gradeCard := gradeCard DEFAULT_W (Fin rate) |}.
Proof.
  intros H.
  unfold createDeck, createDeck_w, createDeck_requestedRetentionRate.
  cbn [createDeck_params DeckParams.w DeckParams.requestedRetentionRate
       or_else_array].
  now rewrite or_else_truthy by (now apply truthy_Fin).
Qed.

Lemma on_schedule_domain (rate : R) (gs : list value) (card : Card.t) :
  0 < rate <= 1 -> in_domain card -> Forall is_grade gs ->
  Forall in_domain
    (on_schedule (Deck.mk (newCard DEFAULT_W (Fin rate))
                          (gradeCard DEFAULT_W (Fin rate))) card gs).
Proof.
  intros Hrate. revert card.
  induction gs as [| g gs IH]; intros card Hc Hgs; [constructor |].
  inversion Hgs as [| g' gs' Hg Hgs']; subst.
  cbn [on_schedule Deck.gradeCard].
  assert (Hc' : in_domain (gradeCard DEFAULT_W (Fin rate) card
                             (Card.I card) g)).
  { destruct Hc as (d & s & i & -> & Hd & Hs & Hi). cbn [Card.I].
    now apply gradeCard_domain. }
  constructor; [exact Hc' | now apply IH].
Qed.

Lemma recall_grades_are_grades (gs : list value) :
  Forall is_recall_grade gs -> Forall is_grade gs.
Proof.
  apply Forall_impl. intros g Hg. apply is_grade_cases. now right.
Qed.

(** X19. Without a lapse every row of the tabulated sequence is a card
    within its ranges: on a deck made with a requested retention from
    0.01 to 1 and the reference weights, when the first rating is any of
    the four grades and every later rating is [HARD], [GOOD] or [EASY],
    each row has a difficulty in [1, 10], a positive stability and a
    non-negative interval. *)
Theorem tabulate_in_domain (rate : R) (g : value) (gs : list value) :
  0.01 <= rate <= 1 -> is_grade g -> Forall is_recall_grade gs ->
  Forall in_domain
    (tabulate
       (createDeck (Some (DeckParams.mk (Fin rate) (Falsy falsy_undefined))))
       (g :: gs)).
Proof.
  intros Hrate Hg Hgs. rewrite createDeck_rate by lra.
  rewrite tabulate_cons. cbn [Deck.newCard].
  assert (H0 : in_domain (newCard DEFAULT_W (Fin rate) g))
    by (apply newCard_domain; [lra | assumption]).
  constructor; [exact H0 |].
  apply on_schedule_domain;
    [lra | exact H0 | now apply recall_grades_are_grades].
Qed.

Lemma tabulate_in_domain_witness :
  Forall in_domain
    (tabulate
       (createDeck (Some (DeckParams.mk (Fin 0.9) (Falsy falsy_undefined))))
       [Grade.AGAIN; Grade.HARD; Grade.GOOD; Grade.EASY]).
Proof.
  apply tabulate_in_domain; [lra | exact is_grade_AGAIN |].
  repeat (apply Forall_cons; [unfold is_recall_grade; tauto |]).
  apply Forall_nil.
Defined.

Lemma on_schedule_GOOD_difficulty (rate : value) (gs : list value)
  (card : Card.t) :
  Card.D card = Fin 4.93 -> Forall (eq Grade.GOOD) gs ->
  Forall (fun c : Card.t => Card.D c = Fin 4.93)
    (on_schedule (Deck.mk (newCard DEFAULT_W rate) (gradeCard DEFAULT_W rate))
       card gs).
Proof.
  revert card. induction gs as [| g gs IH]; intros card Hc Hgs;
    [constructor |].
  inversion Hgs as [| g' gs' Hg Hgs']; subst.
  cbn [on_schedule Deck.gradeCard].
  assert (Hc' : Card.D (gradeCard DEFAULT_W rate card (Card.I card)
                          Grade.GOOD) = Fin 4.93).
  { unfold gradeCard; cbn [Card.D]. rewrite Hc. unfold Grade.GOOD.
    apply nextDifficulty_DEFAULT_W; lra. }
  constructor; [exact Hc' | now apply IH].
Qed.

(** X20. Steady [GOOD] reviews leave the difficulty where it started: on
    the default deck, when every rating is [GOOD], every row of the
    tabulated sequence has the difficulty 4.93, the baseline [w[4]]. *)
Theorem tabulate_GOOD_difficulty (ratings : list value) :
  Forall (eq Grade.GOOD) ratings ->
  Forall (fun c : Card.t => Card.D c = Fin 4.93)
    (tabulate (createDeck None) ratings).
Proof.
  intros Hgs. rewrite createDeck_None.
  destruct ratings as [| g gs]; [constructor |].
  inversion Hgs as [| g' gs' Hg Hgs']; subst.
  rewrite tabulate_cons. cbn [Deck.newCard].
  assert (H0 : Card.D (newCard DEFAULT_W (Fin 0.9) Grade.GOOD) = Fin 4.93).
  { unfold newCard; cbn [Card.D]. exact initialDifficulty_GOOD_DEFAULT_W. }
  constructor; [exact H0 | now apply on_schedule_GOOD_difficulty].
Qed.

Lemma tabulate_GOOD_difficulty_witness :
  Forall (fun c : Card.t => Card.D c = Fin 4.93)
    (tabulate (createDeck None) [Grade.GOOD; Grade.GOOD; Grade.GOOD]).
Proof.
  apply tabulate_GOOD_difficulty. repeat apply Forall_cons; try reflexivity.
  apply Forall_nil.
Defined.

(** A successful review on schedule hands out a card whose stability is
    at least the old one. *)
Lemma gradeCard_scheduled_recall (rate : R) (card : Card.t) (g : value) :
  0 < rate <= 1 -> scheduled rate card -> is_recall_grade g ->
  scheduled rate (gradeCard DEFAULT_W (Fin rate) card (Card.I card) g) /\
  stability_le card (gradeCard DEFAULT_W (Fin rate) card (Card.I card) g).
Proof.
  intros Hrate (d & s & -> & Hs) Hg.
  assert (Hg' : is_grade g) by (apply is_grade_cases; now right).
  destruct (nextDifficulty_range DEFAULT_W d g finite_weights_DEFAULT_W Hg')
    as (d' & Ed & Hd).
  destruct (recall_grade_he g Hg) as (h & e & Hhe & Hcase).
  unfold gradeCard; cbn [Card.S Card.D Card.I].
  rewrite (recall_grade_not_AGAIN g Hg), Ed.
  rewrite retrievability_nextInterval by lra.
  rewrite (recall_DEFAULT_W d' s rate h e g Hs Hcase).
  pose proof (recall_factor_nonneg s rate (proj2 Hrate)) as HM.
  set (M := exp 1.49 * Rpower s (-0.14) * (exp ((1 - rate) * 0.94) - 1)) in *.
  set (s' := s * (1 + M * ((11 - d') * (h * e)))).
  assert (Hle : s <= s').
  { unfold s'.
    assert (Hk : 0 <= (11 - d') * (h * e))
      by (apply Rmult_le_pos; lra).
    assert (Hgrow : 0 <= M * ((11 - d') * (h * e)))
      by (apply Rmult_le_pos; lra).
    nra. }
  split.
  - exists d', s'. split; [reflexivity | lra].
  - exists s, s'. cbn [Card.S]. auto.
Qed.

Lemma on_schedule_sorted (rate : R) (gs : list value) (card : Card.t) :
  0 < rate <= 1 -> scheduled rate card -> Forall is_recall_grade gs ->
  Sorted stability_le
    (card :: on_schedule (Deck.mk (newCard DEFAULT_W (Fin rate))
                                  (gradeCard DEFAULT_W (Fin rate))) card gs).
Proof.
  intros Hrate. revert card.
  induction gs as [| g gs IH]; intros card Hc Hgs.
  - repeat constructor.
  - inversion Hgs as [| g' gs' Hg Hgs']; subst.
    cbn [on_schedule Deck.gradeCard].
    destruct (gradeCard_scheduled_recall rate card g Hrate Hc Hg)
      as [Hc' Hlt].
    constructor; [now apply IH | now constructor].
Qed.

(** X21. Without a lapse a review on schedule never shortens the memory:
    on a deck made with a requested retention from 0.01 to 1 and the
    reference weights, when the first rating is any of the four grades
    and every later rating is [HARD], [GOOD] or [EASY], each row of the
    tabulated sequence has a stability at least as large as the row
    before. *)
Theorem tabulate_stability_grows (rate : R) (g : value) (gs : list value) :
  0.01 <= rate <= 1 -> is_grade g -> Forall is_recall_grade gs ->
  Sorted stability_le
    (tabulate
       (createDeck (Some (DeckParams.mk (Fin rate) (Falsy falsy_undefined))))
       (g :: gs)).
Proof.
  intros Hrate Hg Hgs. rewrite createDeck_rate by lra.
  rewrite tabulate_cons. cbn [Deck.newCard].
  apply on_schedule_sorted; [lra | | exact Hgs].
  destruct (initialStability_reference g Hg) as (s & Es & Hs).
  assert (Hd : exists d : R, initialDifficulty DEFAULT_W g = Fin d).
  { destruct Hg as [-> | [-> | [-> | ->]]]; eexists;
      apply initialDifficulty_Fin; exact finite_weights_DEFAULT_W. }
  destruct Hd as (d & Ed).
  exists d, s. split; [| exact Hs].
  unfold newCard. now rewrite Ed, Es.
Qed.

Lemma tabulate_stability_grows_witness :
  Sorted stability_le
    (tabulate
       (createDeck (Some (DeckParams.mk (Fin 0.9) (Falsy falsy_undefined))))
       [Grade.AGAIN; Grade.HARD; Grade.GOOD; Grade.EASY]).
Proof.
  apply tabulate_stability_grows; [lra | exact is_grade_AGAIN |].
  repeat (apply Forall_cons; [unfold is_recall_grade; tauto |]).
  apply Forall_nil.
Defined.

(* ================================================================== *)
(** * The trace of [test.ts] *)
(* ================================================================== *)

(** Bounds on [exp (16 * q)] from the polynomial at [q] and [- q]. *)
Lemma exp_bounds_16 (q lo1 hi1 lo4 hi4 l h : R) :
  0 <= lo1 -> lo1 <= exp_poly7 q ->
  0 < exp_poly7 (- q) -> 1 <= hi1 * exp_poly7 (- q) ->
  0 <= lo4 -> lo4 <= lo1 * lo1 * lo1 * lo1 -> hi1 * hi1 * hi1 * hi1 <= hi4 ->
  l <= lo4 * lo4 * lo4 * lo4 -> hi4 * hi4 * hi4 * hi4 <= h ->
  l <= exp (16 * q) <= h.
Proof.
  intros H1 H2 H3 H4 H5 H6 H7 H8 H9.
  replace (16 * q) with (4 * (4 * q)) by ring.
  apply exp_quadruple with (lo := lo4) (hi := hi4); try assumption.
  apply exp_quadruple with (lo := lo1) (hi := hi1); try assumption.
  split; [now apply exp_lower | now apply exp_upper].
Qed.

Lemma ln_enclosure (x L1 L2 : R) :
  0 < x -> exp L1 <= x -> x <= exp L2 -> L1 <= ln x <= L2.
Proof.
  intros Hx H1 H2. split.
  - destruct (Rle_or_lt L1 (ln x)) as [H | H]; [exact H |].
    apply exp_increasing in H. rewrite exp_ln in H by assumption. lra.
  - destruct (Rle_or_lt (ln x) L2) as [H | H]; [exact H |].
    apply exp_increasing in H. rewrite exp_ln in H by assumption. lra.
Qed.

(** A review on schedule on the default deck, grade [GOOD]. *)
Lemma gradeCard_GOOD_scheduled (d s d' : R) :
  1 <= d' <= 10 ->
  0.01 * 4.93 + (1 - 0.01) * (d - 0.86 * (3 - 3)) = d' ->
  0 < s ->
  gradeCard DEFAULT_W (Fin 0.9) (Card.mk (Fin d) (Fin s) (Fin s)) (Fin s)
    Grade.GOOD
  = Card.mk (Fin d') (Fin (recall_GOOD_R d' s)) (Fin (recall_GOOD_R d' s)).
Proof.
  intros Hd Ed Hs. unfold gradeCard; cbn [Card.S Card.D].
  rewrite recall_grade_not_AGAIN by (unfold is_recall_grade; tauto).
  rewrite retrievability_at_stability by assumption.
  assert (ED : nextDifficulty DEFAULT_W (Fin d) Grade.GOOD = Fin d')
    by (unfold Grade.GOOD; now apply nextDifficulty_DEFAULT_W).
  rewrite ED.
  rewrite (recall_DEFAULT_W d' s 0.9 1 1 Grade.GOOD Hs) by tauto.
  now rewrite nextInterval_reference.
Qed.

(** A review on schedule on the default deck, grade [AGAIN]. *)
Lemma gradeCard_AGAIN_scheduled (d s d' : R) :
  1 <= d' <= 10 ->
  0.01 * 4.93 + (1 - 0.01) * (d - 0.86 * (1 - 3)) = d' ->
  0 < s ->
  gradeCard DEFAULT_W (Fin 0.9) (Card.mk (Fin d) (Fin s) (Fin s)) (Fin s)
    Grade.AGAIN
  = Card.mk (Fin d') (Fin (forget_R d' s)) (Fin (forget_R d' s)).
Proof.
  intros Hd Ed Hs. unfold gradeCard; cbn [Card.S Card.D].
  change (Grade.AGAIN === Grade.AGAIN)%js with (Fin 1 === Fin 1)%js.
  rewrite strict_eq_Fin_true by reflexivity.
  rewrite retrievability_at_stability by assumption.
  assert (ED : nextDifficulty DEFAULT_W (Fin d) Grade.AGAIN = Fin d')
    by (unfold Grade.AGAIN; now apply nextDifficulty_DEFAULT_W).
  rewrite ED.
  rewrite nextStabilityAfterForgetting_Fin
    by (try exact finite_weights_DEFAULT_W; lra).
  unfold weight; simpl nth; cbv iota.
  replace (Ropp 0.05) with (-0.05) by lra.
  now rewrite nextInterval_reference.
Qed.

Lemma exp_149_tight : 4.4370955189 <= exp (16 * 0.093125) <= 4.4370955191.
Proof.
  apply exp_bounds_16 with (lo1 := 1.097598926559) (hi1 := 1.09759892656)
    (lo4 := 1.451358479141) (hi4 := 1.451358479148); unfold exp_poly7; lra.
Qed.

Lemma exp_0094_tight : 1.0985597459 <= exp 0.094 <= 1.098559746.
Proof.
  split; [apply exp_lower | apply exp_upper]; unfold exp_poly7; lra.
Qed.

Lemma exp_0126_tight : 1.1342821682 <= exp 0.126 <= 1.1342821683.
Proof.
  split; [apply exp_lower | apply exp_upper]; unfold exp_poly7; lra.
Qed.

Lemma exp_149_16 : 4.4370955189 <= exp 1.49 <= 4.4370955191.
Proof.
  replace 1.49 with (16 * 0.093125) by lra. exact exp_149_tight.
Qed.

Lemma exp_0094_minus_1 :
  0.0985597459 <= exp ((1 - 0.9) * 0.94) - 1 <= 0.098559746.
Proof.
  replace ((1 - 0.9) * 0.94) with 0.094 by lra.
  pose proof exp_0094_tight. lra.
Qed.

Lemma exp_0126_lit : 1.1342821682 <= exp ((1 - 0.9) * 1.26) <= 1.1342821683.
Proof.
  replace ((1 - 0.9) * 1.26) with 0.126 by lra. exact exp_0126_tight.
Qed.

Lemma trace_ln_2_exp_lo : 2.3999924703 <= exp (16 * 0.0547166) <= 2.3999924704.
Proof.
  apply exp_bounds_16 with (lo1 := 1.056241233489) (hi1 := 1.05624123349)
    (lo4 := 1.244664978335) (hi4 := 1.24466497834); unfold exp_poly7; lra.
Qed.

Lemma trace_ln_2_exp_hi : 2.4000039903 <= exp (16 * 0.0547169) <= 2.4000039904.
Proof.
  apply exp_bounds_16 with (lo1 := 1.056241550362) (hi1 := 1.056241550363)
    (lo4 := 1.244666471936) (hi4 := 1.244666471942); unfold exp_poly7; lra.
Qed.

Lemma trace_ln_2 (x : R) :
  2.4 <= x <= 2.4 -> 16 * 0.0547166 <= ln x <= 16 * 0.0547169.
Proof.
  intros Hx. apply ln_enclosure; [lra | |].
  - pose proof trace_ln_2_exp_lo. lra.
  - pose proof trace_ln_2_exp_hi. lra.
Qed.

Lemma trace_pow_2_lo : 0.8846476436 <= exp (-0.122565856) <= 0.8846476437.
Proof.
  split; [apply exp_lower | apply exp_upper]; unfold exp_poly7; lra.
Qed.

Lemma trace_pow_2_hi : 0.8846482381 <= exp (-0.122565184) <= 0.8846482382.
Proof.
  split; [apply exp_lower | apply exp_upper]; unfold exp_poly7; lra.
Qed.

Lemma trace_step_2 (s : R) :
  2.4 <= s <= 2.4 ->
  8.035969 <= recall_GOOD_R 4.93 s <= 8.035973.
Proof.
  intros Hs. unfold recall_GOOD_R.
  pose proof (trace_ln_2 s Hs) as Hln.
  assert (Hq : 0.8846476436 <= Rpower s (-0.14) <= 0.8846482382).
  { unfold Rpower. split.
    - apply Rle_trans with (exp (-0.122565856));
        [apply trace_pow_2_lo | apply exp_le_mono; lra].
    - apply Rle_trans with (exp (-0.122565184));
        [apply exp_le_mono; lra | apply trace_pow_2_hi]. }
  pose proof (product_bounds (exp 1.49) (Rpower s (-0.14))
                (exp ((1 - 0.9) * 0.94) - 1)
                4.4370955189 4.4370955191 0.8846476436 0.8846482382
                0.0985597459 0.098559746) as HP.
  destruct HP as [P1 P2];
    [lra | lra | lra | exact exp_149_16 | exact Hq | exact exp_0094_minus_1 |].
  set (M := exp 1.49 * Rpower s (-0.14) * (exp ((1 - 0.9) * 0.94) - 1)) in *.
  assert (HY : 3.348320499 <= 1 + M * ((11 - 4.93) * (1 * 1)) <= 3.348322081)
    by lra.
  assert (HS : 2.4 * 3.348320499
               <= s * (1 + M * ((11 - 4.93) * (1 * 1)))
               <= 2.4 * 3.348322081)
    by (split; apply Rmult_le_compat; lra).
  lra.
Qed.

Lemma trace_ln_3_exp_lo : 8.0359465849 <= exp (16 * 0.1302453) <= 8.0359465857.
Proof.
  apply exp_bounds_16 with (lo1 := 1.13910777219) (hi1 := 1.139107772196)
    (lo4 := 1.683678865166) (hi4 := 1.683678865203); unfold exp_poly7; lra.
Qed.

Lemma trace_ln_3_exp_hi : 8.0359980151 <= exp (16 * 0.1302457) <= 8.0359980159.
Proof.
  apply exp_bounds_16 with (lo1 := 1.139108227833) (hi1 := 1.139108227839)
    (lo4 := 1.683681559053) (hi4 := 1.68368155909); unfold exp_poly7; lra.
Qed.

Lemma trace_ln_3 (x : R) :
  8.035969 <= x <= 8.035973 -> 16 * 0.1302453 <= ln x <= 16 * 0.1302457.
Proof.
  intros Hx. apply ln_enclosure; [lra | |].
  - pose proof trace_ln_3_exp_lo. lra.
  - pose proof trace_ln_3_exp_hi. lra.
Qed.

Lemma trace_pow_3_lo : 0.7469549753 <= exp (-0.291750368) <= 0.7469549774.
Proof.
  split; [apply exp_lower | apply exp_upper]; unfold exp_poly7; lra.
Qed.

Lemma trace_pow_3_hi : 0.7469556445 <= exp (-0.291749472) <= 0.7469556466.
Proof.
  split; [apply exp_lower | apply exp_upper]; unfold exp_poly7; lra.
Qed.

Lemma trace_step_3 (s : R) :
  8.035969 <= s <= 8.035973 ->
  23.969782 <= recall_GOOD_R 4.93 s <= 23.969809.
Proof.
  intros Hs. unfold recall_GOOD_R.
  pose proof (trace_ln_3 s Hs) as Hln.
  assert (Hq : 0.7469549753 <= Rpower s (-0.14) <= 0.7469556466).
  { unfold Rpower. split.
    - apply Rle_trans with (exp (-0.291750368));
        [apply trace_pow_3_lo | apply exp_le_mono; lra].
    - apply Rle_trans with (exp (-0.291749472));
        [apply exp_le_mono; lra | apply trace_pow_3_hi]. }
  pose proof (product_bounds (exp 1.49) (Rpower s (-0.14))
                (exp ((1 - 0.9) * 0.94) - 1)
                4.4370955189 4.4370955191 0.7469549753 0.7469556466
                0.0985597459 0.098559746) as HP.
  destruct HP as [P1 P2];
    [lra | lra | lra | exact exp_149_16 | exact Hq | exact exp_0094_minus_1 |].
  set (M := exp 1.49 * Rpower s (-0.14) * (exp ((1 - 0.9) * 0.94) - 1)) in *.
  assert (HY : 2.98281168 <= 1 + M * ((11 - 4.93) * (1 * 1)) <= 2.982813465)
    by lra.
  assert (HS : 8.035969 * 2.98281168
               <= s * (1 + M * ((11 - 4.93) * (1 * 1)))
               <= 8.035973 * 2.982813465)
    by (split; apply Rmult_le_compat; lra).
  lra.
Qed.

Lemma trace_ln_4_exp_lo : 23.9697351507 <= exp (16 * 0.1985495) <= 23.9697351977.
Proof.
  apply exp_bounds_16 with (lo1 := 1.219632397662) (hi1 := 1.219632397811)
    (lo4 := 2.212665726654) (hi4 := 2.212665727737); unfold exp_poly7; lra.
Qed.

Lemma trace_ln_4_exp_hi : 23.9698502058 <= exp (16 * 0.1985498) <= 23.9698502528.
Proof.
  apply exp_bounds_16 with (lo1 := 1.219632763552) (hi1 := 1.219632763701)
    (lo4 := 2.212668381856) (hi4 := 2.212668382939); unfold exp_poly7; lra.
Qed.

Lemma trace_ln_4 (x : R) :
  23.969782 <= x <= 23.969809 -> 16 * 0.1985495 <= ln x <= 16 * 0.1985498.
Proof.
  intros Hx. apply ln_enclosure; [lra | |].
  - pose proof trace_ln_4_exp_lo. lra.
  - pose proof trace_ln_4_exp_hi. lra.
Qed.

Lemma trace_pow_4_lo : 0.6409834711 <= exp (-0.444751552) <= 0.6409835238.
Proof.
  split; [apply exp_lower | apply exp_upper]; unfold exp_poly7; lra.
Qed.

Lemma trace_pow_4_hi : 0.6409839018 <= exp (-0.44475088) <= 0.6409839545.
Proof.
  split; [apply exp_lower | apply exp_upper]; unfold exp_poly7; lra.
Qed.

Lemma trace_step_4 (s : R) :
  23.969782 <= s <= 23.969809 ->
  64.754546 <= recall_GOOD_R 4.93 s <= 64.754651.
Proof.
  intros Hs. unfold recall_GOOD_R.
  pose proof (trace_ln_4 s Hs) as Hln.
  assert (Hq : 0.6409834711 <= Rpower s (-0.14) <= 0.6409839545).
  { unfold Rpower. split.
    - apply Rle_trans with (exp (-0.444751552));
        [apply trace_pow_4_lo | apply exp_le_mono; lra].
    - apply Rle_trans with (exp (-0.44475088));
        [apply exp_le_mono; lra | apply trace_pow_4_hi]. }
  pose proof (product_bounds (exp 1.49) (Rpower s (-0.14))
                (exp ((1 - 0.9) * 0.94) - 1)
                4.4370955189 4.4370955191 0.6409834711 0.6409839545
                0.0985597459 0.098559746) as HP.
  destruct HP as [P1 P2];
    [lra | lra | lra | exact exp_149_16 | exact Hq | exact exp_0094_minus_1 |].
  set (M := exp 1.49 * Rpower s (-0.14) * (exp ((1 - 0.9) * 0.94) - 1)) in *.
  assert (HY : 2.701507527 <= 1 + M * ((11 - 4.93) * (1 * 1)) <= 2.701508813)
    by lra.
  assert (HS : 23.969782 * 2.701507527
               <= s * (1 + M * ((11 - 4.93) * (1 * 1)))
               <= 23.969809 * 2.701508813)
    by (split; apply Rmult_le_compat; lra).
  lra.
Qed.

Lemma trace_ln_d_5_exp_lo : 6.6327798506 <= exp (16 * 0.1182515) <= 6.632779851.
Proof.
  apply exp_bounds_16 with (lo1 := 1.12552714585) (hi1 := 1.125527145853)
    (lo4 := 1.604811011805) (hi4 := 1.604811011823); unfold exp_poly7; lra.
Qed.

Lemma trace_ln_d_5_exp_hi : 6.632811688 <= exp (16 * 0.1182518) <= 6.6328116884.
Proof.
  apply exp_bounds_16 with (lo1 := 1.125527483508) (hi1 := 1.125527483511)
    (lo4 := 1.604812937578) (hi4 := 1.604812937596); unfold exp_poly7; lra.
Qed.

Lemma trace_ln_d_5 (x : R) :
  6.6328 <= x <= 6.6328 -> 16 * 0.1182515 <= ln x <= 16 * 0.1182518.
Proof.
  intros Hx. apply ln_enclosure; [lra | |].
  - pose proof trace_ln_d_5_exp_lo. lra.
  - pose proof trace_ln_d_5_exp_hi. lra.
Qed.

Lemma trace_dpow_5_lo : 0.9097354463 <= exp (-0.09460144) <= 0.9097354464.
Proof.
  split; [apply exp_lower | apply exp_upper]; unfold exp_poly7; lra.
Qed.

Lemma trace_dpow_5_hi : 0.9097356647 <= exp (-0.0946012) <= 0.9097356648.
Proof.
  split; [apply exp_lower | apply exp_upper]; unfold exp_poly7; lra.
Qed.

Lemma trace_ln_5_exp_lo : 65.7543871196 <= exp (16 * 0.2616204) <= 65.7543882973.
Proof.
  apply exp_bounds_16 with (lo1 := 1.299033335209) (hi1 := 1.299033336663)
    (lo4 := 2.84761442035) (hi4 := 2.8476144331); unfold exp_poly7; lra.
Qed.

Lemma trace_ln_5_exp_hi : 65.7548079494 <= exp (16 * 0.2616208) <= 65.7548091272.
Proof.
  apply exp_bounds_16 with (lo1 := 1.299033854823) (hi1 := 1.299033856277)
    (lo4 := 2.847618976541) (hi4 := 2.847618989292); unfold exp_poly7; lra.
Qed.

Lemma trace_ln_5 (x : R) :
  65.754546 <= x <= 65.754651 -> 16 * 0.2616204 <= ln x <= 16 * 0.2616208.
Proof.
  intros Hx. apply ln_enclosure; [lra | |].
  - pose proof trace_ln_5_exp_lo. lra.
  - pose proof trace_ln_5_exp_hi. lra.
Qed.

Lemma trace_pow_5_lo : 4.1504425868 <= exp (16 * 0.088950936) <= 4.150442587.
Proof.
  apply exp_bounds_16 with (lo1 := 1.093027026732) (hi1 := 1.093027026733)
    (lo4 := 1.427327399204) (hi4 := 1.42732739921); unfold exp_poly7; lra.
Qed.

Lemma trace_pow_5_hi : 4.1504516182 <= exp (16 * 0.088951072) <= 4.1504516184.
Proof.
  apply exp_bounds_16 with (lo1 := 1.093027175384) (hi1 := 1.093027175385)
    (lo4 := 1.427328175672) (hi4 := 1.427328175678); unfold exp_poly7; lra.
Qed.

Lemma trace_step_5 (s : R) :
  64.754546 <= s <= 64.754651 ->
  7.08703 <= forget_R 6.6328 s <= 7.087053.
Proof.
  intros Hs. unfold forget_R.
  assert (Hs1 : 65.754546 <= s + 1 <= 65.754651) by lra.
  pose proof (trace_ln_5 (s + 1) Hs1) as Hln.
  assert (Hd : 6.6328 <= 6.6328 <= 6.6328) by lra.
  pose proof (trace_ln_d_5 6.6328 Hd) as Hlnd.
  assert (Hp : 0.9097354463 <= Rpower 6.6328 (-0.05) <= 0.9097356648).
  { unfold Rpower. split.
    - apply Rle_trans with (exp (-0.09460144));
        [apply trace_dpow_5_lo | apply exp_le_mono; lra].
    - apply Rle_trans with (exp (-0.0946012));
        [apply exp_le_mono; lra | apply trace_dpow_5_hi]. }
  assert (HP : 3.1504425868 <= Rpower (s + 1) 0.34 - 1 <= 3.1504516184).
  { unfold Rpower. split.
    - apply Rle_trans with (exp (16 * 0.088950936) - 1);
        [pose proof trace_pow_5_lo; lra |].
      apply Rplus_le_compat_r. apply exp_le_mono. lra.
    - apply Rle_trans with (exp (16 * 0.088951072) - 1);
        [| pose proof trace_pow_5_hi; lra].
      apply Rplus_le_compat_r. apply exp_le_mono. lra. }
  pose proof (product_bounds (Rpower 6.6328 (-0.05))
                (Rpower (s + 1) 0.34 - 1) (exp ((1 - 0.9) * 1.26))
                0.9097354463 0.9097356648 3.1504425868 3.1504516184
                1.1342821682 1.1342821683) as HQ.
  destruct HQ as [Q1 Q2];
    [lra | lra | lra | exact Hp | exact HP | exact exp_0126_lit |].
  assert (Eq : 2.18 * Rpower 6.6328 (-0.05) * (Rpower (s + 1) 0.34 - 1)
               * exp ((1 - 0.9) * 1.26)
               = 2.18 * (Rpower 6.6328 (-0.05) * (Rpower (s + 1) 0.34 - 1)
                         * exp ((1 - 0.9) * 1.26))) by ring.
  rewrite Eq. lra.
Qed.

Lemma trace_ln_6_exp_lo : 7.0870133246 <= exp (16 * 0.1223915) <= 7.0870133251.
Proof.
  apply exp_bounds_16 with (lo1 := 1.130196487101) (hi1 := 1.130196487105)
    (lo4 := 1.631607948413) (hi4 := 1.631607948437); unfold exp_poly7; lra.
Qed.

Lemma trace_ln_6_exp_hi : 7.0870700209 <= exp (16 * 0.122392) <= 7.0870700214.
Proof.
  apply exp_bounds_16 with (lo1 := 1.130197052199) (hi1 := 1.130197052203)
    (lo4 := 1.63161121163) (hi4 := 1.631611211654); unfold exp_poly7; lra.
Qed.

Lemma trace_ln_6 (x : R) :
  7.08703 <= x <= 7.087053 -> 16 * 0.1223915 <= ln x <= 16 * 0.122392.
Proof.
  intros Hx. apply ln_enclosure; [lra | |].
  - pose proof trace_ln_6_exp_lo. lra.
  - pose proof trace_ln_6_exp_hi. lra.
Qed.

Lemma trace_pow_6_lo : 0.7602118906 <= exp (-0.27415808) <= 0.760211892.
Proof.
  split; [apply exp_lower | apply exp_upper]; unfold exp_poly7; lra.
Qed.

Lemma trace_pow_6_hi : 0.7602127421 <= exp (-0.27415696) <= 0.7602127434.
Proof.
  split; [apply exp_lower | apply exp_upper]; unfold exp_poly7; lra.
Qed.

Lemma trace_step_6 (s : R) :
  7.08703 <= s <= 7.087053 ->
  17.416794 <= recall_GOOD_R 6.615772 s <= 17.416863.
Proof.
  intros Hs. unfold recall_GOOD_R.
  pose proof (trace_ln_6 s Hs) as Hln.
  assert (Hq : 0.7602118906 <= Rpower s (-0.14) <= 0.7602127434).
  { unfold Rpower. split.
    - apply Rle_trans with (exp (-0.27415808));
        [apply trace_pow_6_lo | apply exp_le_mono; lra].
    - apply Rle_trans with (exp (-0.27415696));
        [apply exp_le_mono; lra | apply trace_pow_6_hi]. }
  pose proof (product_bounds (exp 1.49) (Rpower s (-0.14))
                (exp ((1 - 0.9) * 0.94) - 1)
                4.4370955189 4.4370955191 0.7602118906 0.7602127434
                0.0985597459 0.098559746) as HP.
  destruct HP as [P1 P2];
    [lra | lra | lra | exact exp_149_16 | exact Hq | exact exp_0094_minus_1 |].
  set (M := exp 1.49 * Rpower s (-0.14) * (exp ((1 - 0.9) * 0.94) - 1)) in *.
  assert (HY : 2.457558997 <= 1 + M * ((11 - 6.615772) * (1 * 1)) <= 2.457560635)
    by lra.
  assert (HS : 7.08703 * 2.457558997
               <= s * (1 + M * ((11 - 6.615772) * (1 * 1)))
               <= 7.087053 * 2.457560635)
    by (split; apply Rmult_le_compat; lra).
  lra.
Qed.

Lemma trace_ln_7_exp_lo : 17.416743256 <= exp (16 * 0.1785895) <= 17.4167432708.
Proof.
  apply exp_bounds_16 with (lo1 := 1.195529878383) (hi1 := 1.195529878446)
    (lo4 := 2.042874735407) (hi4 := 2.042874735839); unfold exp_poly7; lra.
Qed.

Lemma trace_ln_7_exp_hi : 17.4169104575 <= exp (16 * 0.1785901) <= 17.4169104723.
Proof.
  apply exp_bounds_16 with (lo1 := 1.195530595701) (hi1 := 1.195530595764)
    (lo4 := 2.042879638311) (hi4 := 2.042879638743); unfold exp_poly7; lra.
Qed.

Lemma trace_ln_7 (x : R) :
  17.416794 <= x <= 17.416863 -> 16 * 0.1785895 <= ln x <= 16 * 0.1785901.
Proof.
  intros Hx. apply ln_enclosure; [lra | |].
  - pose proof trace_ln_7_exp_lo. lra.
  - pose proof trace_ln_7_exp_hi. lra.
Qed.

Lemma trace_pow_7_lo : 0.6702919955 <= exp (-0.400041824) <= 0.6702920189.
Proof.
  split; [apply exp_lower | apply exp_upper]; unfold exp_poly7; lra.
Qed.

Lemma trace_pow_7_hi : 0.6702928964 <= exp (-0.40004048) <= 0.6702929197.
Proof.
  split; [apply exp_lower | apply exp_upper]; unfold exp_poly7; lra.
Qed.

Lemma trace_step_7 (s : R) :
  17.416794 <= s <= 17.416863 ->
  39.886139 <= recall_GOOD_R 6.59891428 s <= 39.886329.
Proof.
  intros Hs. unfold recall_GOOD_R.
  pose proof (trace_ln_7 s Hs) as Hln.
  assert (Hq : 0.6702919955 <= Rpower s (-0.14) <= 0.6702929197).
  { unfold Rpower. split.
    - apply Rle_trans with (exp (-0.400041824));
        [apply trace_pow_7_lo | apply exp_le_mono; lra].
    - apply Rle_trans with (exp (-0.40004048));
        [apply exp_le_mono; lra | apply trace_pow_7_hi]. }
  pose proof (product_bounds (exp 1.49) (Rpower s (-0.14))
                (exp ((1 - 0.9) * 0.94) - 1)
                4.4370955189 4.4370955191 0.6702919955 0.6702929197
                0.0985597459 0.098559746) as HP.
  destruct HP as [P1 P2];
    [lra | lra | lra | exact exp_149_16 | exact Hq | exact exp_0094_minus_1 |].
  set (M := exp 1.49 * Rpower s (-0.14) * (exp ((1 - 0.9) * 0.94) - 1)) in *.
  assert (HY : 2.290096549 <= 1 + M * ((11 - 6.59891428) * (1 * 1)) <= 2.29009833)
    by lra.
  assert (HS : 17.416794 * 2.290096549
               <= s * (1 + M * ((11 - 6.59891428) * (1 * 1)))
               <= 17.416863 * 2.29009833)
    by (split; apply Rmult_le_compat; lra).
  lra.
Qed.

(** The rows of [test.ts] in exact arithmetic: the difficulties, and
    bounds on the stabilities, which are the intervals too. *)
Lemma tabulate_test_ratings :
  exists s2 s3 s4 s5 s6 s7 : R,
    tabulate (createDeck None) test_ratings
    = [Card.mk (Fin 4.93) (Fin 2.4) (Fin 2.4);
       Card.mk (Fin 4.93) (Fin s2) (Fin s2);
       Card.mk (Fin 4.93) (Fin s3) (Fin s3);
       Card.mk (Fin 4.93) (Fin s4) (Fin s4);
       Card.mk (Fin 6.6328) (Fin s5) (Fin s5);
       Card.mk (Fin 6.615772) (Fin s6) (Fin s6);
       Card.mk (Fin 6.59891428) (Fin s7) (Fin s7)] /\
    8.035969 <= s2 <= 8.035973 /\
    23.969782 <= s3 <= 23.969809 /\
    64.754546 <= s4 <= 64.754651 /\
    7.08703 <= s5 <= 7.087053 /\
    17.416794 <= s6 <= 17.416863 /\
    39.886139 <= s7 <= 39.886329.
Proof.
  set (s2 := recall_GOOD_R 4.93 2.4).
  set (s3 := recall_GOOD_R 4.93 s2).
  set (s4 := recall_GOOD_R 4.93 s3).
  set (s5 := forget_R 6.6328 s4).
  set (s6 := recall_GOOD_R 6.615772 s5).
  set (s7 := recall_GOOD_R 6.59891428 s6).
  assert (B2 : 8.035969 <= s2 <= 8.035973) by (apply trace_step_2; lra).
  pose proof (trace_step_3 s2 B2) as B3. fold s3 in B3.
  pose proof (trace_step_4 s3 B3) as B4. fold s4 in B4.
  pose proof (trace_step_5 s4 B4) as B5. fold s5 in B5.
  pose proof (trace_step_6 s5 B5) as B6. fold s6 in B6.
  pose proof (trace_step_7 s6 B6) as B7. fold s7 in B7.
  exists s2, s3, s4, s5, s6, s7.
  split; [| repeat split; lra].
  rewrite createDeck_None. unfold test_ratings.
  rewrite tabulate_cons.
  cbn [on_schedule Deck.gradeCard Deck.newCard].
  rewrite newCard_GOOD_reference. cbn [Card.I].
  rewrite (gradeCard_GOOD_scheduled 4.93 2.4 4.93) by lra.
  fold s2. cbn [Card.I].
  rewrite (gradeCard_GOOD_scheduled 4.93 s2 4.93) by lra.
  fold s3. cbn [Card.I].
  rewrite (gradeCard_GOOD_scheduled 4.93 s3 4.93) by lra.
  fold s4. cbn [Card.I].
  rewrite (gradeCard_AGAIN_scheduled 4.93 s4 6.6328) by lra.
  fold s5. cbn [Card.I].
  rewrite (gradeCard_GOOD_scheduled 6.6328 s5 6.615772) by lra.
  fold s6. cbn [Card.I].
  rewrite (gradeCard_GOOD_scheduled 6.615772 s6 6.59891428) by lra.
  reflexivity.
Qed.

Lemma row_near_bounds (d s lo hi : R) (row : R * R) :
  Rabs (d - fst row) < 0.000001 ->
  lo <= s <= hi -> snd row - 0.001 < lo -> hi < snd row + 0.001 ->
  row_near (Card.mk (Fin d) (Fin s) (Fin s)) row.
Proof.
  intros Hd Hs Hlo Hhi. unfold row_near; cbn [Card.D Card.S Card.I].
  split; [exists d; split; [reflexivity | exact Hd] |].
  split; exists s; (split; [reflexivity | apply Rabs_def1; lra]).
Qed.

(** X22. The table of [test.ts]: on the default deck the ratings
    [GOOD, GOOD, GOOD, GOOD, AGAIN, GOOD, GOOD], each review made on
    schedule, give seven rows whose difficulties are, to six decimals,
    4.93 four times and then 6.6328, 6.615772 and 6.598914, and whose
    stabilities and intervals are both, to three decimals, 2.4, 8.036,
    23.970, 64.755, 7.087, 17.417 and 39.886. *)
Theorem test_trace :
  Forall2 row_near (tabulate (createDeck None) test_ratings)
    [(4.93, 2.4); (4.93, 8.036); (4.93, 23.970); (4.93, 64.755);
     (6.6328, 7.087); (6.615772, 17.417); (6.598914, 39.886)].
Proof.
  destruct tabulate_test_ratings
    as (s2 & s3 & s4 & s5 & s6 & s7 & E & B2 & B3 & B4 & B5 & B6 & B7).
  rewrite E.
  repeat (apply Forall2_cons; [| ]); try apply Forall2_nil.
  - apply (row_near_bounds 4.93 2.4 2.4 2.4); cbn [fst snd];
      [apply Rabs_def1; lra | lra | lra | lra].
  - apply (row_near_bounds 4.93 s2 8.035969 8.035973); cbn [fst snd];
      [apply Rabs_def1; lra | lra | lra | lra].
  - apply (row_near_bounds 4.93 s3 23.969782 23.969809); cbn [fst snd];
      [apply Rabs_def1; lra | lra | lra | lra].
  - apply (row_near_bounds 4.93 s4 64.754546 64.754651); cbn [fst snd];
      [apply Rabs_def1; lra | lra | lra | lra].
  - apply (row_near_bounds 6.6328 s5 7.08703 7.087053); cbn [fst snd];
      [apply Rabs_def1; lra | lra | lra | lra].
  - apply (row_near_bounds 6.615772 s6 17.416794 17.416863); cbn [fst snd];
      [apply Rabs_def1; lra | lra | lra | lra].
  - apply (row_near_bounds 6.59891428 s7 39.886139 39.886329); cbn [fst snd];
      [apply Rabs_def1; lra | lra | lra | lra].
Qed.

(* ================================================================== *)
(** * Difficulty and the sign of the retention rate *)
(* ================================================================== *)

Lemma Rpower_neg_antitone (a b y : R) :
  0 < a -> a <= b -> 0 <= y -> Rpower b (- y) <= Rpower a (- y).
Proof.
  intros Ha Hab Hy. rewrite !Rpower_Ropp.
  apply Rinv_le_contravar; [apply Rpower_pos |].
  apply Rle_Rpower_l; lra.
Qed.

(** X23. A harder card never comes out more stable: on the reference
    weights, for difficulties [1 <= d1 <= d2 <= 10], a stability [s > 0]
    and a retrievability in (0, 1], both the recall transition (grade
    [HARD], [GOOD] or [EASY]) and the forgetting transition return at
    [d2] a stability no larger than at [d1]. *)
Theorem harder_card_less_stable (d1 d2 s r : R) (g : value) :
  1 <= d1 -> d1 <= d2 -> d2 <= 10 -> 0 < s -> 0 < r <= 1 ->
  is_recall_grade g ->
  exists a1 a2 f1 f2 : R,
    nextStabilityAfterRecall DEFAULT_W (Fin d1) (Fin s) (Fin r) g = Fin a1 /\
    nextStabilityAfterRecall DEFAULT_W (Fin d2) (Fin s) (Fin r) g = Fin a2 /\
    nextStabilityAfterForgetting DEFAULT_W (Fin d1) (Fin s) (Fin r) = Fin f1 /\
    nextStabilityAfterForgetting DEFAULT_W (Fin d2) (Fin s) (Fin r) = Fin f2 /\
    a2 <= a1 /\ f2 <= f1.
Proof.
  intros H1 H12 H2 Hs Hr Hg.
  destruct (recall_grade_he g Hg) as (h & e & Hhe & Hcase).
  do 4 eexists.
  split; [now apply (recall_DEFAULT_W d1 s r h e g) |].
  split; [now apply (recall_DEFAULT_W d2 s r h e g) |].
  split; [apply nextStabilityAfterForgetting_Fin;
            [exact finite_weights_DEFAULT_W | lra | lra] |].
  split; [apply nextStabilityAfterForgetting_Fin;
            [exact finite_weights_DEFAULT_W | lra | lra] |].
  split.
  - pose proof (recall_factor_nonneg s r (proj2 Hr)) as HM.
    set (M := exp 1.49 * Rpower s (-0.14) * (exp ((1 - r) * 0.94) - 1)) in *.
    assert (Hk : (11 - d2) * (h * e) <= (11 - d1) * (h * e))
      by (apply Rmult_le_compat_r; lra).
    assert (HMk : M * ((11 - d2) * (h * e)) <= M * ((11 - d1) * (h * e)))
      by (apply Rmult_le_compat_l; lra).
    apply Rmult_le_compat_l; lra.
  - unfold weight; simpl nth; cbv iota.
    pose proof (Rpower_neg_antitone d1 d2 0.05) as Hp.
    assert (Hp' : Rpower d2 (Ropp 0.05) <= Rpower d1 (Ropp 0.05))
      by (apply Hp; lra).
    assert (HX : 0 < Rpower (s + 1) 0.34 - 1).
    { assert (H : Rpower (s + 1) 0 < Rpower (s + 1) 0.34)
        by (apply Rpower_lt; lra).
      rewrite Rpower_O in H by lra. lra. }
    pose proof (exp_pos ((1 - r) * 1.26)) as HY.
    apply Rmult_le_compat_r; [lra |].
    apply Rmult_le_compat_r; [lra |].
    apply Rmult_le_compat_l; [lra | exact Hp'].
Qed.

Lemma harder_card_less_stable_witness :
  exists a1 a2 f1 f2 : R,
    nextStabilityAfterRecall DEFAULT_W (Fin 3) (Fin 2) (Fin 0.9) Grade.GOOD
    = Fin a1 /\
    nextStabilityAfterRecall DEFAULT_W (Fin 8) (Fin 2) (Fin 0.9) Grade.GOOD
    = Fin a2 /\
    nextStabilityAfterForgetting DEFAULT_W (Fin 3) (Fin 2) (Fin 0.9) = Fin f1 /\
    nextStabilityAfterForgetting DEFAULT_W (Fin 8) (Fin 2) (Fin 0.9) = Fin f2 /\
    a2 <= a1 /\ f2 <= f1.
Proof.
  apply harder_card_less_stable; try lra.
  unfold is_recall_grade. tauto.
Defined.

Lemma Math_pow_neg_base_minus_2 (r : R) :
  0 < r -> Math_pow (Fin (- r)) (Fin (-2)) = Fin (/ (r * r)).
Proof.
  intros Hr. unfold Math_pow; cbn [ToNumber].
  destruct (Req_dec_T (-2) 0) as [H | _]; [lra |].
  destruct (total_order_T 0 (- r)) as [[H | H] | _]; [lra | lra |].
  rewrite (is_integer_IZR (-2)), (Int_part_IZR (-2)).
  f_equal. change (powerRZ (- r) (-2)) with (/ ((- r) * ((- r) * 1))).
  f_equal. ring.
Qed.

(** X24. The sign of the requested retention is lost: [nextInterval]
    raises the rate to the power [-2], so for a rate [r < 0] the interval
    is the interval for [|r|], whatever the stability, and a deck made
    with a negative rate hands out the cards of the deck made with its
    absolute value. *)
Theorem negative_rate_as_positive (w : list value) (r : R) :
  r < 0 ->
  (forall S : value,
     nextInterval (Fin r) S = nextInterval (Fin (Rabs r)) S) /\
  (forall g : value, newCard w (Fin r) g = newCard w (Fin (Rabs r)) g) /\
  (forall (card : Card.t) (t g : value),
     gradeCard w (Fin r) card t g = gradeCard w (Fin (Rabs r)) card t g).
Proof.
  intros Hr.
  assert (E : forall S : value,
            nextInterval (Fin r) S = nextInterval (Fin (Rabs r)) S).
  { intros S. rewrite Rabs_left by assumption.
    unfold nextInterval, DECAY.
    rewrite div_Fin by lra. replace (1 / -0.5) with (-2) by lra.
    replace r with (- (- r)) at 1 by ring.
    rewrite Math_pow_neg_base_minus_2 by lra.
    rewrite Math_pow_Fin, Rpower_neg2 by lra. reflexivity. }
  split; [exact E |]. split.
  - intros g. unfold newCard. now rewrite E.
  - intros card t g. unfold gradeCard. now rewrite E.
Qed.

Lemma negative_rate_as_positive_witness :
  (forall S : value,
     nextInterval (Fin (-0.9)) S = nextInterval (Fin (Rabs (-0.9))) S) /\
  (forall g : value,
     newCard DEFAULT_W (Fin (-0.9)) g
     = newCard DEFAULT_W (Fin (Rabs (-0.9))) g) /\
  (forall (card : Card.t) (t g : value),
     gradeCard DEFAULT_W (Fin (-0.9)) card t g
     = gradeCard DEFAULT_W (Fin (Rabs (-0.9))) card t g).
Proof.
  apply (negative_rate_as_positive DEFAULT_W (-0.9)). lra.
Defined.
